(** * Terminal: fan-out writer of node-core-library

    A shallow embedding of [libraries/node-core-library/src/Terminal/Terminal.ts].

    - Caller-supplied message parts are JavaScript values: a primitive string
      or a reference to an [IColorableSequence] object living in a heap.
    - The [Terminal] instance ([this]) has two fields, [verboseEnabled] and
      [_providers]; its methods are commands of a small state-and-exception
      monad over the instance, the object heap and the trace of calls made
      on the providers.
    - [os.EOL] is a constant of the host platform: a parameter of the
      methods that use it.
    - [this._providers] is a JavaScript [Set]: no provider twice, iteration
      in insertion order. *)

From Stdlib Require Import List String Ascii Arith Lia Bool DecimalString.
Import ListNotations.
Open Scope string_scope.
Open Scope list_scope.

(** ** Declarations imported by Terminal.ts *)

(** Modelled from the spec: the [Color] enumeration of [../Colors], the nine
    named colors of section 3 of the specification. *)
Inductive Color : Set :=
| Black | Red | Green | Yellow | Blue | Magenta | Cyan | White | Gray.

(** Modelled from the spec: the [IColorableSequence] record of [../Colors],
    [{ text: string, foregroundColor?: Color, backgroundColor?: Color }];
    an absent optional field is [None]. *)
Record IColorableSequence : Set := {
  text : string;
  foregroundColor : option Color;
  backgroundColor : option Color
}.

(** Modelled from the spec: the two-valued [Severity] enumeration of
    [./ITerminalProvider]. *)
Inductive Severity : Set := log | warn.

(** Modelled from the spec: the [ITerminalProvider] interface of
    [./ITerminalProvider]: a capability flag [supportsColor] and an operation
    [write(text, severity)].  A provider is an object; [providerId] stands for
    its identity, and a call of its [write] is recorded in the trace. *)
Record ITerminalProvider : Set := {
  providerId : nat;
  supportsColor : bool
}.

(** ** JavaScript values and the object heap *)

Definition Ref := nat.

(** [string | IColorableSequence]: a primitive string, or a reference to an
    object. *)
Inductive MessagePart : Set :=
| Str (s : string)
| Obj (r : Ref).

Definition Heap := list IColorableSequence.

Definition deref (h : Heap) (r : Ref) : option IColorableSequence := nth_error h r.

(** The object literal [{ text: s }]. *)
Definition textOnly (s : string) : IColorableSequence :=
  {| text := s; foregroundColor := None; backgroundColor := None |}.

(** The content a part stands for: [typeof part === 'string' ? { text: part } : part]. *)
Definition resolve (h : Heap) (part : MessagePart) : option IColorableSequence :=
  match part with
  | Str s => Some (textOnly s)
  | Obj r => deref h r
  end.

Fixpoint resolveAll (h : Heap) (parts : list MessagePart) : option (list IColorableSequence) :=
  match parts with
  | [] => Some []
  | part :: rest =>
      match resolve h part, resolveAll h rest with
      | Some c, Some cs => Some (c :: cs)
      | _, _ => None
      end
  end.

(** ** [Set<ITerminalProvider>]: unique by identity, iterated in insertion order *)

Definition sameProvider (p q : ITerminalProvider) : bool :=
  Nat.eqb (providerId p) (providerId q).

Definition Set_has (s : list ITerminalProvider) (p : ITerminalProvider) : bool :=
  existsb (sameProvider p) s.

Definition Set_add (s : list ITerminalProvider) (p : ITerminalProvider) : list ITerminalProvider :=
  if Set_has s p then s else s ++ [p].

Definition Set_delete (s : list ITerminalProvider) (p : ITerminalProvider) : list ITerminalProvider :=
  filter (fun q => negb (sameProvider p q)) s.

(** ** The serializer *)

(** ['\u001b['] *)
Definition CSI : string := String (ascii_of_nat 27) "[".

(** [code.toString()] *)
Definition toString (code : nat) : string := NilZero.string_of_uint (Nat.to_uint code).

(** The three strings pushed for one code. *)
Definition escape (code : nat) : list string := [CSI; toString code; "m"].

(** [switch (segment.foregroundColor)]: the pair is
    [(startColorCodes, endColorCodes)], [push] appends. *)
Definition switchForeground (c : option Color) (codes : list nat * list nat) : list nat * list nat :=
  let (startColorCodes, endColorCodes) := codes in
  match c with
  | Some Black => (startColorCodes ++ [30], endColorCodes ++ [39])
  | Some Red => (startColorCodes ++ [31], endColorCodes ++ [39])
  | Some Green => (startColorCodes ++ [32], endColorCodes ++ [39])
  | Some Yellow => (startColorCodes ++ [33], endColorCodes ++ [39])
  | Some Blue => (startColorCodes ++ [34], endColorCodes ++ [39])
  | Some Magenta => (startColorCodes ++ [35], endColorCodes ++ [39])
  | Some Cyan => (startColorCodes ++ [36], endColorCodes ++ [39])
  | Some White => (startColorCodes ++ [37], endColorCodes ++ [39])
  | Some Gray => (startColorCodes ++ [90], endColorCodes ++ [39])
  | None => (startColorCodes, endColorCodes)
  end.

(** [switch (segment.backgroundColor)] *)
Definition switchBackground (c : option Color) (codes : list nat * list nat) : list nat * list nat :=
  let (startColorCodes, endColorCodes) := codes in
  match c with
  | Some Black => (startColorCodes ++ [40], endColorCodes ++ [49])
  | Some Red => (startColorCodes ++ [41], endColorCodes ++ [49])
  | Some Green => (startColorCodes ++ [42], endColorCodes ++ [49])
  | Some Yellow => (startColorCodes ++ [43], endColorCodes ++ [49])
  | Some Blue => (startColorCodes ++ [44], endColorCodes ++ [49])
  | Some Magenta => (startColorCodes ++ [45], endColorCodes ++ [49])
  | Some Cyan => (startColorCodes ++ [46], endColorCodes ++ [49])
  | Some White => (startColorCodes ++ [47], endColorCodes ++ [49])
  | Some Gray => (startColorCodes ++ [100], endColorCodes ++ [49])
  | None => (startColorCodes, endColorCodes)
  end.

(** What the color branch pushes on [segmentsToJoin] for a segment object:
    the start codes in order, the text, the end codes from last to first. *)
Definition coloredChunks (segment : IColorableSequence) : list string :=
  let (startColorCodes, endColorCodes) :=
    switchBackground (backgroundColor segment)
      (switchForeground (foregroundColor segment) ([], [])) in
  flat_map escape startColorCodes ++ [text segment] ++ flat_map escape (rev endColorCodes).

(** One iteration of the loop over [segments]: the strings pushed on
    [segmentsToJoin], or [None] when a field of a missing object is read. *)
Definition pushedChunks (h : Heap) (withColor : bool) (segment : MessagePart) : option (list string) :=
  if withColor then
    match segment with
    | Str s => Some (coloredChunks (textOnly s))
    | Obj r => option_map coloredChunks (deref h r)
    end
  else
    match segment with
    | Str s => Some [s]
    | Obj r => option_map (fun o => [text o]) (deref h r)
    end.

Fixpoint serializeLoop (h : Heap) (withColor : bool) (segments : list MessagePart)
    (segmentsToJoin : list string) : option (list string) :=
  match segments with
  | [] => Some segmentsToJoin
  | segment :: rest =>
      match pushedChunks h withColor segment with
      | Some chunks => serializeLoop h withColor rest (segmentsToJoin ++ chunks)
      | None => None
      end
  end.

(** [_serializeFormattableTextSegments(segments, withColor)]; [join('')] is
    [String.concat ""]. *)
Definition _serializeFormattableTextSegments (h : Heap) (segments : list MessagePart)
    (withColor : bool) : option string :=
  option_map (String.concat "") (serializeLoop h withColor segments []).

(** The rendering of resolved segments, segment by segment. *)
Definition renderSegment (withColor : bool) (c : IColorableSequence) : string :=
  String.concat "" (if withColor then coloredChunks c else [text c]).

Definition render (withColor : bool) (cs : list IColorableSequence) : string :=
  String.concat "" (map (renderSegment withColor) cs).

(** ** The world of a call: the instance, the heap, the calls made so far *)

(** The fields of a [Terminal] instance. *)
Record Terminal : Set := {
  verboseEnabled : bool;
  _providers : list ITerminalProvider
}.

(** What a method call does that can be observed from outside:
    [Serialized c] is a call of [_serializeFormattableTextSegments(_, c)],
    [ProviderWrite p s v] is the call [p.write(s, v)]. *)
Inductive Event : Set :=
| Serialized (withColor : bool)
| ProviderWrite (provider : ITerminalProvider) (textToWrite : string) (severity : Severity).

Record World : Set := {
  this : Terminal;
  heap : Heap;
  trace : list Event
}.

(** [RangeError]: the call stack is exhausted.  [InvalidReference]: a
    reference that points at no object was followed; no JavaScript program
    can build one, the case only makes the model total. *)
Inductive Error : Set := RangeError | InvalidReference.

Inductive Outcome (A : Type) : Type :=
| Return (a : A) (w : World)
| Throw (e : Error) (w : World).
Arguments Return {A} a w.
Arguments Throw {A} e w.

Definition worldOf {A : Type} (o : Outcome A) : World :=
  match o with
  | Return _ w => w
  | Throw _ w => w
  end.

Definition M (A : Type) : Type := World -> Outcome A.

Definition ret {A : Type} (a : A) : M A := fun w => Return a w.

Definition bind {A B : Type} (m : M A) (k : A -> M B) : M B :=
  fun w =>
    match m w with
    | Return a w' => k a w'
    | Throw e w' => Throw e w'
    end.

Definition throw {A : Type} (e : Error) : M A := fun w => Throw e w.

Notation "x <- m ;; k" := (bind m (fun x => k))
  (at level 61, m at next level, right associativity).
Notation "m ;;; k" := (bind m (fun _ => k))
  (at level 61, right associativity).

(** Reading the fields of [this]. *)
Definition getVerboseEnabled : M bool := fun w => Return (verboseEnabled (this w)) w.
Definition getProviders : M (list ITerminalProvider) := fun w => Return (_providers (this w)) w.

(** Assigning the fields of [this]. *)
Definition setVerboseEnabled (b : bool) : M unit :=
  fun w => Return tt {| this := {| verboseEnabled := b; _providers := _providers (this w) |};
                        heap := heap w; trace := trace w |}.
Definition setProviders (s : list ITerminalProvider) : M unit :=
  fun w => Return tt {| this := {| verboseEnabled := verboseEnabled (this w); _providers := s |};
                        heap := heap w; trace := trace w |}.

(** An object literal: a new object at the end of the heap. *)
Definition newObject (o : IColorableSequence) : M MessagePart :=
  fun w => Return (Obj (List.length (heap w)))
                  {| this := this w; heap := heap w ++ [o]; trace := trace w |}.

(** Reading the fields of a part as an object (a string has text only). *)
Definition readPart (part : MessagePart) : M IColorableSequence :=
  fun w =>
    match resolve (heap w) part with
    | Some o => Return o w
    | None => Throw InvalidReference w
    end.

Definition emit (e : Event) : M unit :=
  fun w => Return tt {| this := this w; heap := heap w; trace := trace w ++ [e] |}.

(** The call [this._serializeFormattableTextSegments(segments, withColor)]. *)
Definition callSerialize (segments : list MessagePart) (withColor : bool) : M string :=
  emit (Serialized withColor) ;;;
  fun w =>
    match _serializeFormattableTextSegments (heap w) segments withColor with
    | Some s => Return s w
    | None => Throw InvalidReference w
    end.

(** The call [provider.write(textToWrite, severity)].  What a provider does
    with the text is its own business; the call is recorded and is taken to
    return. *)
Definition callProviderWrite (provider : ITerminalProvider) (textToWrite : string)
    (severity : Severity) : M unit :=
  emit (ProviderWrite provider textToWrite severity).

(** [Array.prototype.map] with a callback that allocates. *)
Fixpoint mapM {A B : Type} (f : A -> M B) (l : list A) : M (list B) :=
  match l with
  | [] => ret []
  | a :: rest => b <- f a ;; bs <- mapM f rest ;; ret (b :: bs)
  end.

(** A local [let x: string] of the fan-out: [None] while unassigned.
    [x || ...] takes the right operand when [x] is [undefined] or empty. *)
Definition truthy (x : option string) : option string :=
  match x with
  | Some EmptyString => None
  | Some s => Some s
  | None => None
  end.

Section Methods.

(** [EOL] of the [os] module: the line ending of the platform. *)
Variable EOL : string.

(** ** Construction and registration *)

(** [new Terminal(provider, verboseEnabled)] *)
Definition newTerminal (provider : ITerminalProvider) (verbose : bool) : Terminal :=
  {| verboseEnabled := verbose; _providers := Set_add [] provider |}.

Definition registerProvider (provider : ITerminalProvider) : M unit :=
  s <- getProviders ;;
  setProviders (Set_add s provider).

Definition unregisterProvider (provider : ITerminalProvider) : M unit :=
  s <- getProviders ;;
  if Set_has s provider then setProviders (Set_delete s provider) else ret tt.

(** ** The fan-out *)

(** The body of [this._providers.forEach(...)], with the two locals
    [withColor] and [withoutColor] the callback closes over. *)
Fixpoint forEachProvider (segments : list MessagePart) (severity : Severity)
    (providers : list ITerminalProvider) (withColor withoutColor : option string) : M unit :=
  match providers with
  | [] => ret tt
  | provider :: rest =>
      if supportsColor provider then
        match truthy withColor with
        | Some textToWrite =>
            callProviderWrite provider textToWrite severity ;;;
            forEachProvider segments severity rest withColor withoutColor
        | None =>
            textToWrite <- callSerialize segments true ;;
            callProviderWrite provider textToWrite severity ;;;
            forEachProvider segments severity rest (Some textToWrite) withoutColor
        end
      else
        match truthy withoutColor with
        | Some textToWrite =>
            callProviderWrite provider textToWrite severity ;;;
            forEachProvider segments severity rest withColor withoutColor
        | None =>
            textToWrite <- callSerialize segments false ;;
            callProviderWrite provider textToWrite severity ;;;
            forEachProvider segments severity rest withColor (Some textToWrite)
        end
  end.

Definition _writeSegmentsToProviders (segments : list MessagePart) (severity : Severity) : M unit :=
  providers <- getProviders ;;
  forEachProvider segments severity providers None None.

(** ** The public write methods *)

(** [{ ...(typeof part === 'string' ? { text: part } : part), foregroundColor: color }]:
    a new object with the fields of the part, the foreground color replaced. *)
Definition spreadWithForeground (color : Color) (part : MessagePart) : M MessagePart :=
  o <- readPart part ;;
  newObject {| text := text o;
               foregroundColor := Some color;
               backgroundColor := backgroundColor o |}.

Definition write (messageParts : list MessagePart) : M unit :=
  eol <- newObject (textOnly EOL) ;;
  _writeSegmentsToProviders (messageParts ++ [eol]) log.

Definition writeLine (messageParts : list MessagePart) : M unit :=
  eol <- newObject (textOnly EOL) ;;
  write (messageParts ++ [eol]).

Definition writeWarning (messageParts : list MessagePart) : M unit :=
  segments <- mapM (spreadWithForeground Yellow) messageParts ;;
  _writeSegmentsToProviders segments warn.

Definition writeWarningLine (messageParts : list MessagePart) : M unit :=
  segments <- mapM (spreadWithForeground Yellow) messageParts ;;
  eol <- newObject (textOnly EOL) ;;
  _writeSegmentsToProviders (segments ++ [eol]) warn.

Definition writeError (messageParts : list MessagePart) : M unit :=
  segments <- mapM (spreadWithForeground Red) messageParts ;;
  _writeSegmentsToProviders segments warn.

Definition writeErrorLine (messageParts : list MessagePart) : M unit :=
  segments <- mapM (spreadWithForeground Yellow) messageParts ;;
  eol <- newObject (textOnly EOL) ;;
  _writeSegmentsToProviders (segments ++ [eol]) warn.

Definition writeVerbose (messageParts : list MessagePart) : M unit :=
  verbose <- getVerboseEnabled ;;
  if verbose then _writeSegmentsToProviders messageParts log else ret tt.

(** [writeVerboseLine] calls itself; [stack] is the number of frames the
    call stack still has room for, and a call with no room left throws. *)
Fixpoint writeVerboseLine (stack : nat) (messageParts : list MessagePart) : M unit :=
  match stack with
  | 0 => throw RangeError
  | S stack' =>
      eol <- newObject (textOnly EOL) ;;
      writeVerboseLine stack' (messageParts ++ [eol])
  end.

(** The eight public write methods, and a call of one of them. *)
Inductive WriteMethod : Set :=
| Write | WriteLine | WriteWarning | WriteWarningLine
| WriteError | WriteErrorLine | WriteVerbose | WriteVerboseLine.

Definition invoke (stack : nat) (m : WriteMethod) (messageParts : list MessagePart) : M unit :=
  match m with
  | Write => write messageParts
  | WriteLine => writeLine messageParts
  | WriteWarning => writeWarning messageParts
  | WriteWarningLine => writeWarningLine messageParts
  | WriteError => writeError messageParts
  | WriteErrorLine => writeErrorLine messageParts
  | WriteVerbose => writeVerbose messageParts
  | WriteVerboseLine => writeVerboseLine stack messageParts
  end.

End Methods.

(** ** Reading a trace *)

(** How many times the rendering of one capability class was computed. *)
Fixpoint serializations (withColor : bool) (evs : list Event) : nat :=
  match evs with
  | [] => 0
  | Serialized c :: rest =>
      (if Bool.eqb c withColor then 1 else 0) + serializations withColor rest
  | ProviderWrite _ _ _ :: rest => serializations withColor rest
  end.

(** The calls of [provider.write], in the order they were made. *)
Fixpoint providerWrites (evs : list Event) : list (ITerminalProvider * string * Severity) :=
  match evs with
  | [] => []
  | Serialized _ :: rest => providerWrites rest
  | ProviderWrite p s v :: rest => (p, s, v) :: providerWrites rest
  end.

(** One call of [write] per provider, each with the rendering of its class. *)
Definition deliveries (providers : list ITerminalProvider) (colored plain : string)
    (severity : Severity) : list (ITerminalProvider * string * Severity) :=
  map (fun p => (p, if supportsColor p then colored else plain, severity)) providers.

(** The calls received by the providers without color support. *)
Definition toPlainProviders (l : list (ITerminalProvider * string * Severity))
    : list (ITerminalProvider * string * Severity) :=
  filter (fun d => negb (supportsColor (fst (fst d)))) l.

(** The events of [forEachProvider] once both renderings are known. *)
Fixpoint fanOut (colored plain : string) (severity : Severity)
    (providers : list ITerminalProvider) (withColor withoutColor : option string) : list Event :=
  match providers with
  | [] => []
  | provider :: rest =>
      if supportsColor provider then
        match truthy withColor with
        | Some textToWrite =>
            ProviderWrite provider textToWrite severity
              :: fanOut colored plain severity rest withColor withoutColor
        | None =>
            Serialized true :: ProviderWrite provider colored severity
              :: fanOut colored plain severity rest (Some colored) withoutColor
        end
      else
        match truthy withoutColor with
        | Some textToWrite =>
            ProviderWrite provider textToWrite severity
              :: fanOut colored plain severity rest withColor withoutColor
        | None =>
            Serialized false :: ProviderWrite provider plain severity
              :: fanOut colored plain severity rest withColor (Some plain)
        end
  end.

(** The content of the object [spreadWithForeground] allocates. *)
Definition forceForeground (color : Color) (o : IColorableSequence) : IColorableSequence :=
  {| text := text o; foregroundColor := Some color; backgroundColor := backgroundColor o |}.

(** A segment with no color set. *)
Definition noColor (o : IColorableSequence) : bool :=
  match foregroundColor o, backgroundColor o with
  | None, None => true
  | _, _ => false
  end.

Definition isVerboseLine (m : WriteMethod) : bool :=
  match m with
  | WriteVerboseLine => true
  | _ => false
  end.

(** The calls that get to the fan-out: [writeVerbose] is gated by the
    verbose flag, [writeVerboseLine] only ever calls itself. *)
Definition reachesFanOut (m : WriteMethod) (t : Terminal) : bool :=
  match m with
  | WriteVerboseLine => false
  | WriteVerbose => verboseEnabled t
  | _ => true
  end.


(** The world after a call: the instance and the old objects as they were,
    new objects [objs] at the end of the heap, events [evs] at the end of
    the trace. *)
Definition extend (w : World) (objs : list IColorableSequence) (evs : list Event) : World :=
  {| this := this w; heap := heap w ++ objs; trace := trace w ++ evs |}.

(** A local of the fan-out holds nothing usable, or the rendering. *)
Definition cached (rendering : string) (x : option string) : Prop :=
  forall t, truthy x = Some t -> t = rendering.

(** ** Vocabulary of the further properties *)

(** The escape sequence of one code, as it ends up in the joined string. *)
Definition sgr (code : nat) : string := String.concat "" (escape code).

(** The start code the two switches push for a color. *)
Definition foregroundCode (c : Color) : nat :=
  hd 0 (fst (switchForeground (Some c) ([], []))).
Definition backgroundCode (c : Color) : nat :=
  hd 0 (fst (switchBackground (Some c) ([], []))).

(** The opening and the closing sequence of an optional color. *)
Definition openColor (code : Color -> nat) (c : option Color) : string :=
  match c with
  | Some c => sgr (code c)
  | None => ""
  end.
Definition closeColor (reset : nat) (c : option Color) : string :=
  match c with
  | Some _ => sgr reset
  | None => ""
  end.

Definition emptyText (o : IColorableSequence) : bool :=
  match text o with
  | EmptyString => true
  | String _ _ => false
  end.

(** The registered providers of one capability class. *)
Definition providersOf (withColor : bool) (providers : list ITerminalProvider)
    : list ITerminalProvider :=
  filter (fun p => Bool.eqb (supportsColor p) withColor) providers.

(** The calls received by the provider of a given identity. *)
Definition writesTo (p : ITerminalProvider) (l : list (ITerminalProvider * string * Severity))
    : list (ITerminalProvider * string * Severity) :=
  filter (fun d => sameProvider p (fst (fst d))) l.

(** The identities of a set of providers. *)
Definition identities (s : list ITerminalProvider) : list nat := map providerId s.

(** The methods that pass a [{ text: EOL }] segment to the fan-out. *)
Definition appendsEOL (m : WriteMethod) : bool :=
  match m with
  | Write | WriteLine | WriteWarningLine | WriteErrorLine => true
  | _ => false
  end.

(** After the command [c] run in [w], whatever its outcome: [this] is as it
    was, the heap and the trace have only grown at their ends, and every
    provider written to is one registered in [w]. *)
Definition extendsAt {A : Type} (c : M A) (w : World) : Prop :=
  exists objs evs,
    worldOf (c w) = extend w objs evs
    /\ Forall (fun d => In (fst (fst d)) (_providers (this w))) (providerWrites evs).

(** The operations the owner of a terminal performs on it: registration,
    assignment of the verbose flag, creation of a segment object, a call of
    a write method. *)
Inductive Operation : Set :=
| Register (provider : ITerminalProvider)
| Unregister (provider : ITerminalProvider)
| AssignVerbose (b : bool)
| NewSegment (o : IColorableSequence)
| Call (stack : nat) (m : WriteMethod) (messageParts : list MessagePart).

(** The world after one operation, whatever its outcome. *)
Definition perform (EOL : string) (op : Operation) (w : World) : World :=
  match op with
  | Register provider => worldOf (registerProvider provider w)
  | Unregister provider => worldOf (unregisterProvider provider w)
  | AssignVerbose b => worldOf (setVerboseEnabled b w)
  | NewSegment o => worldOf (newObject o w)
  | Call stack m messageParts => worldOf (invoke EOL stack m messageParts w)
  end.

(** The world after a sequence of operations. *)
Definition session (EOL : string) (ops : list Operation) (w : World) : World :=
  fold_left (fun w op => perform EOL op w) ops w.

(** The world just after [new Terminal(provider, verbose)]. *)
Definition freshWorld (provider : ITerminalProvider) (verbose : bool) : World :=
  {| this := newTerminal provider verbose; heap := []; trace := [] |}.

(** ** Sample data *)

Definition LF : string := String (ascii_of_nat 10) "".

Definition colorConsole : ITerminalProvider := {| providerId := 1; supportsColor := true |}.
Definition plainFile : ITerminalProvider := {| providerId := 2; supportsColor := false |}.
Definition plainLog : ITerminalProvider := {| providerId := 3; supportsColor := false |}.

Definition yellowOnBlue (s : string) : IColorableSequence :=
  {| text := s; foregroundColor := Some Yellow; backgroundColor := Some Blue |}.

(** A terminal with the given providers and one object in the heap. *)
Definition sampleWorld (verbose : bool) (providers : list ITerminalProvider) : World :=
  {| this := {| verboseEnabled := verbose; _providers := providers |};
     heap := [yellowOnBlue "hi"];
     trace := [] |}.

(** A terminal after a few operations of its owner. *)
Definition sampleSession : World :=
  session LF
    [Register plainFile; NewSegment (yellowOnBlue "hi"); Register colorConsole;
     Call 0 WriteLine [Str "x"; Obj 0]; Register plainLog; Unregister plainFile;
     AssignVerbose true]
    (freshWorld colorConsole false).

(** * Properties *)

(** ** Strings *)

Lemma append_empty_r (s : string) : (s ++ "")%string = s.
Proof. induction s as [|a s IH]; simpl; [reflexivity | now rewrite IH]. Qed.

Lemma append_assoc (a b c : string) : ((a ++ b) ++ c)%string = (a ++ (b ++ c))%string.
Proof. induction a as [|x a IH]; simpl; [reflexivity | now rewrite IH]. Qed.

Lemma append_nonempty_l (a b : string) : a <> "" -> (a ++ b)%string <> "".
Proof. destruct a; simpl; [congruence | discriminate]. Qed.

Lemma append_nonempty_r (a b : string) : b <> "" -> (a ++ b)%string <> "".
Proof. destruct a; simpl; [trivial | discriminate]. Qed.

Lemma join_cons (s : string) (l : list string) :
  String.concat "" (s :: l) = (s ++ String.concat "" l)%string.
Proof.
  destruct l as [|t l]; simpl.
  - now rewrite append_empty_r.
  - reflexivity.
Qed.

Lemma join_app (l1 l2 : list string) :
  String.concat "" (l1 ++ l2) = (String.concat "" l1 ++ String.concat "" l2)%string.
Proof.
  induction l1 as [|s l1 IH].
  - reflexivity.
  - rewrite <- app_comm_cons, !join_cons, IH, append_assoc. reflexivity.
Qed.

Lemma join_flat_map {A : Type} (f : A -> list string) (l : list A) :
  String.concat "" (flat_map f l) = String.concat "" (map (fun a => String.concat "" (f a)) l).
Proof.
  induction l as [|a l IH]; simpl flat_map; simpl map.
  - reflexivity.
  - now rewrite join_app, join_cons, IH.
Qed.

(** ** The heap only grows *)

Lemma deref_extend (h extra : Heap) (r : Ref) (o : IColorableSequence) :
  deref h r = Some o -> deref (h ++ extra) r = Some o.
Proof.
  unfold deref. intros H. rewrite nth_error_app1; [exact H |].
  apply nth_error_Some. congruence.
Qed.

Lemma deref_new (h : Heap) (o : IColorableSequence) :
  deref (h ++ [o]) (List.length h) = Some o.
Proof. unfold deref. rewrite nth_error_app2, Nat.sub_diag; [reflexivity | lia]. Qed.

Lemma resolve_extend (h extra : Heap) (part : MessagePart) (o : IColorableSequence) :
  resolve h part = Some o -> resolve (h ++ extra) part = Some o.
Proof. destruct part; simpl; [trivial | apply deref_extend]. Qed.

Lemma resolveAll_extend (h extra : Heap) (parts : list MessagePart) :
  forall cs, resolveAll h parts = Some cs -> resolveAll (h ++ extra) parts = Some cs.
Proof.
  induction parts as [|part parts IH]; simpl; intros cs H.
  - exact H.
  - destruct (resolve h part) as [c|] eqn:Hc; [| discriminate].
    destruct (resolveAll h parts) as [cs'|]; [| discriminate].
    rewrite (resolve_extend _ extra _ _ Hc), (IH cs' eq_refl). exact H.
Qed.

Lemma resolveAll_app (h : Heap) (ps qs : list MessagePart) (cs ds : list IColorableSequence) :
  resolveAll h ps = Some cs -> resolveAll h qs = Some ds ->
  resolveAll h (ps ++ qs) = Some (cs ++ ds).
Proof.
  revert cs. induction ps as [|p ps IH]; simpl; intros cs Hp Hq.
  - injection Hp as <-. exact Hq.
  - destruct (resolve h p) as [c|]; [| discriminate].
    destruct (resolveAll h ps) as [cs'|]; [| discriminate].
    injection Hp as <-. now rewrite (IH cs' eq_refl Hq).
Qed.

(** The parts of a call followed by a new object. *)
Lemma resolveAll_snoc_new (h : Heap) (parts : list MessagePart)
    (cs : list IColorableSequence) (o : IColorableSequence) :
  resolveAll h parts = Some cs ->
  resolveAll (h ++ [o]) (parts ++ [Obj (List.length h)]) = Some (cs ++ [o]).
Proof.
  intros H. apply resolveAll_app.
  - now apply resolveAll_extend.
  - simpl. now rewrite deref_new.
Qed.

(** ** The serializer computes [render] of the resolved segments *)

Lemma pushedChunks_resolve (h : Heap) (withColor : bool) (segment : MessagePart) :
  pushedChunks h withColor segment =
  option_map (fun o => if withColor then coloredChunks o else [text o]) (resolve h segment).
Proof. destruct withColor, segment; reflexivity. Qed.

Lemma serializeLoop_resolved (h : Heap) (withColor : bool) (segments : list MessagePart) :
  forall cs segmentsToJoin,
    resolveAll h segments = Some cs ->
    serializeLoop h withColor segments segmentsToJoin =
    Some (segmentsToJoin
            ++ flat_map (fun o => if withColor then coloredChunks o else [text o]) cs).
Proof.
  induction segments as [|segment rest IH]; simpl; intros cs acc H.
  - injection H as <-. simpl. now rewrite app_nil_r.
  - rewrite pushedChunks_resolve.
    destruct (resolve h segment) as [c|]; [| discriminate].
    destruct (resolveAll h rest) as [cs'|]; [| discriminate].
    injection H as <-. simpl. rewrite (IH cs' _ eq_refl), <- app_assoc. reflexivity.
Qed.

Lemma serialize_resolved (h : Heap) (segments : list MessagePart)
    (cs : list IColorableSequence) (withColor : bool) :
  resolveAll h segments = Some cs ->
  _serializeFormattableTextSegments h segments withColor = Some (render withColor cs).
Proof.
  intros H. unfold _serializeFormattableTextSegments, render, renderSegment.
  rewrite (serializeLoop_resolved _ _ _ _ [] H). simpl. now rewrite join_flat_map.
Qed.

Lemma render_app (withColor : bool) (cs ds : list IColorableSequence) :
  render withColor (cs ++ ds) = (render withColor cs ++ render withColor ds)%string.
Proof. unfold render. now rewrite map_app, join_app. Qed.

Lemma render_textOnly (withColor : bool) (s : string) :
  render withColor [textOnly s] = s.
Proof. destruct withColor; reflexivity. Qed.

Lemma renderSegment_noColor (withColor : bool) (o : IColorableSequence) :
  noColor o = true -> renderSegment withColor o = text o.
Proof.
  destruct o as [t [f|] [b|]]; try discriminate. intros _.
  destruct withColor; reflexivity.
Qed.

(** ** Worlds and the primitive commands *)

Lemma extend_nil (w : World) : extend w [] [] = w.
Proof. destruct w. unfold extend. simpl. now rewrite !app_nil_r. Qed.

Lemma extend_extend (w : World) (o1 o2 : list IColorableSequence) (e1 e2 : list Event) :
  extend (extend w o1 e1) o2 e2 = extend w (o1 ++ o2) (e1 ++ e2).
Proof. unfold extend. simpl. now rewrite !app_assoc. Qed.

Lemma resolveAll_in_extend (w : World) (objs : list IColorableSequence) (evs : list Event)
    (parts : list MessagePart) (cs : list IColorableSequence) :
  resolveAll (heap w) parts = Some cs ->
  resolveAll (heap (extend w objs evs)) parts = Some cs.
Proof. apply resolveAll_extend. Qed.

Lemma newObject_spec (o : IColorableSequence) (w : World) :
  newObject o w = Return (Obj (List.length (heap w))) (extend w [o] []).
Proof. unfold newObject, extend. now rewrite app_nil_r. Qed.

Lemma emit_spec (e : Event) (w : World) : emit e w = Return tt (extend w [] [e]).
Proof. unfold emit, extend. now rewrite app_nil_r. Qed.

Lemma callSerialize_spec (segments : list MessagePart) (cs : list IColorableSequence)
    (withColor : bool) (w : World) :
  resolveAll (heap w) segments = Some cs ->
  callSerialize segments withColor w
  = Return (render withColor cs) (extend w [] [Serialized withColor]).
Proof.
  intros H. unfold callSerialize, bind. rewrite emit_spec.
  now rewrite (serialize_resolved _ _ cs _ (resolveAll_in_extend _ _ _ _ _ H)).
Qed.

(** ** The fan-out *)

Lemma forEachProvider_spec (segments : list MessagePart) (cs : list IColorableSequence)
    (severity : Severity) (providers : list ITerminalProvider) :
  forall withColor withoutColor w,
    resolveAll (heap w) segments = Some cs ->
    forEachProvider segments severity providers withColor withoutColor w
    = Return tt (extend w [] (fanOut (render true cs) (render false cs) severity
                                     providers withColor withoutColor)).
Proof.
  induction providers as [|provider rest IH]; intros wc wp w H; simpl.
  - now rewrite extend_nil.
  - destruct (supportsColor provider).
    + destruct (truthy wc) as [t|]; unfold bind, callProviderWrite.
      * rewrite emit_spec, IH by now apply resolveAll_in_extend.
        now rewrite extend_extend.
      * rewrite (callSerialize_spec _ cs) by exact H.
        rewrite emit_spec, IH by now repeat apply resolveAll_in_extend.
        now rewrite !extend_extend.
    + destruct (truthy wp) as [t|]; unfold bind, callProviderWrite.
      * rewrite emit_spec, IH by now apply resolveAll_in_extend.
        now rewrite extend_extend.
      * rewrite (callSerialize_spec _ cs) by exact H.
        rewrite emit_spec, IH by now repeat apply resolveAll_in_extend.
        now rewrite !extend_extend.
Qed.

Lemma writeSegmentsToProviders_spec (segments : list MessagePart)
    (cs : list IColorableSequence) (severity : Severity) (w : World) :
  resolveAll (heap w) segments = Some cs ->
  _writeSegmentsToProviders segments severity w
  = Return tt (extend w [] (fanOut (render true cs) (render false cs) severity
                                   (_providers (this w)) None None)).
Proof.
  intros H. unfold _writeSegmentsToProviders, bind, getProviders.
  now apply forEachProvider_spec.
Qed.

Lemma cached_None (rendering : string) : cached rendering None.
Proof. intros t H. discriminate. Qed.

Lemma cached_Some (rendering : string) : cached rendering (Some rendering).
Proof. intros t H. destruct rendering; simpl in H; congruence. Qed.

Lemma truthy_nonempty (s : string) : s <> "" -> truthy (Some s) = Some s.
Proof. destruct s; simpl; congruence. Qed.

Lemma fanOut_writes (colored plain : string) (severity : Severity)
    (providers : list ITerminalProvider) :
  forall withColor withoutColor,
    cached colored withColor -> cached plain withoutColor ->
    providerWrites (fanOut colored plain severity providers withColor withoutColor)
    = deliveries providers colored plain severity.
Proof.
  induction providers as [|p rest IH]; intros wc wp Hc Hp; simpl.
  - reflexivity.
  - destruct (supportsColor p).
    + destruct (truthy wc) as [t|] eqn:E; simpl.
      * rewrite (Hc t E), IH by assumption. reflexivity.
      * rewrite IH by (assumption || apply cached_Some). reflexivity.
    + destruct (truthy wp) as [t|] eqn:E; simpl.
      * rewrite (Hp t E), IH by assumption. reflexivity.
      * rewrite IH by (assumption || apply cached_Some). reflexivity.
Qed.

Lemma fanOut_colored_once (colored plain : string) (severity : Severity)
    (providers : list ITerminalProvider) :
  colored <> "" ->
  forall withColor withoutColor,
    serializations true (fanOut colored plain severity providers withColor withoutColor)
    = match truthy withColor with
      | Some _ => 0
      | None => if existsb supportsColor providers then 1 else 0
      end.
Proof.
  intros Hne. induction providers as [|p rest IH]; intros wc wp; simpl.
  - now destruct (truthy wc).
  - destruct (supportsColor p) eqn:Ep; simpl.
    + destruct (truthy wc) as [t|] eqn:E; simpl.
      * now rewrite IH, E.
      * now rewrite IH, (truthy_nonempty _ Hne).
    + destruct (truthy wp) as [t|]; simpl; now rewrite IH.
Qed.

Lemma fanOut_plain_once (colored plain : string) (severity : Severity)
    (providers : list ITerminalProvider) :
  plain <> "" ->
  forall withColor withoutColor,
    serializations false (fanOut colored plain severity providers withColor withoutColor)
    = match truthy withoutColor with
      | Some _ => 0
      | None => if existsb (fun p => negb (supportsColor p)) providers then 1 else 0
      end.
Proof.
  intros Hne. induction providers as [|p rest IH]; intros wc wp; simpl.
  - now destruct (truthy wp).
  - destruct (supportsColor p) eqn:Ep; simpl.
    + destruct (truthy wc) as [t|]; simpl; now rewrite IH.
    + destruct (truthy wp) as [t|] eqn:E; simpl.
      * now rewrite IH, E.
      * now rewrite IH, (truthy_nonempty _ Hne).
Qed.

(** ** What each method hands to the fan-out *)

Lemma readPart_spec (part : MessagePart) (o : IColorableSequence) (w : World) :
  resolve (heap w) part = Some o -> readPart part w = Return o w.
Proof. intros H. unfold readPart. now rewrite H. Qed.

Lemma spreadWithForeground_spec (color : Color) (part : MessagePart)
    (o : IColorableSequence) (w : World) :
  resolve (heap w) part = Some o ->
  spreadWithForeground color part w
  = Return (Obj (List.length (heap w))) (extend w [forceForeground color o] []).
Proof.
  intros H. unfold spreadWithForeground, bind.
  rewrite (readPart_spec _ _ _ H), newObject_spec. reflexivity.
Qed.

Lemma mapM_spread (color : Color) (parts : list MessagePart) :
  forall cs w,
    resolveAll (heap w) parts = Some cs ->
    exists segments,
      mapM (spreadWithForeground color) parts w
      = Return segments (extend w (map (forceForeground color) cs) [])
      /\ resolveAll (heap w ++ map (forceForeground color) cs) segments
         = Some (map (forceForeground color) cs).
Proof.
  induction parts as [|part rest IH]; intros cs w H; simpl in H.
  - injection H as <-. exists []. simpl. unfold ret. now rewrite extend_nil.
  - destruct (resolve (heap w) part) as [c|] eqn:Hc; [| discriminate].
    destruct (resolveAll (heap w) rest) as [cs'|] eqn:Hr; [| discriminate].
    injection H as <-.
    destruct (IH cs' (extend w [forceForeground color c] []))
      as [segments [Hrun Hres]]; [now apply resolveAll_in_extend |].
    exists (Obj (List.length (heap w)) :: segments). split.
    + simpl. unfold bind. rewrite (spreadWithForeground_spec _ _ _ _ Hc), Hrun.
      unfold ret. now rewrite extend_extend.
    + simpl in Hres. rewrite <- app_assoc in Hres. simpl in Hres.
      simpl. unfold deref. rewrite nth_error_app2, Nat.sub_diag by lia. simpl.
      now rewrite Hres.
Qed.

Section MethodSpecs.

Variable EOL : string.

(** Each lemma gives the segments handed to the fan-out (through what they
    resolve to in the heap of the call), the objects allocated and the
    events of the call. *)

Lemma write_spec (parts : list MessagePart) (cs : list IColorableSequence) (w : World) :
  resolveAll (heap w) parts = Some cs ->
  exists segments,
    resolveAll (heap w ++ [textOnly EOL]) segments = Some (cs ++ [textOnly EOL])
    /\ write EOL parts w
       = Return tt (extend w [textOnly EOL]
                      (fanOut (render true (cs ++ [textOnly EOL]))
                              (render false (cs ++ [textOnly EOL]))
                              log (_providers (this w)) None None)).
Proof.
  intros H. exists (parts ++ [Obj (List.length (heap w))]).
  split; [now apply resolveAll_snoc_new |].
  unfold write, bind. rewrite newObject_spec.
  rewrite (writeSegmentsToProviders_spec _ (cs ++ [textOnly EOL]))
    by now apply resolveAll_snoc_new.
  now rewrite extend_extend.
Qed.

Lemma writeLine_spec (parts : list MessagePart) (cs : list IColorableSequence) (w : World) :
  resolveAll (heap w) parts = Some cs ->
  exists segments,
    resolveAll (heap w ++ [textOnly EOL; textOnly EOL]) segments
    = Some (cs ++ [textOnly EOL; textOnly EOL])
    /\ writeLine EOL parts w
       = Return tt (extend w [textOnly EOL; textOnly EOL]
                      (fanOut (render true (cs ++ [textOnly EOL; textOnly EOL]))
                              (render false (cs ++ [textOnly EOL; textOnly EOL]))
                              log (_providers (this w)) None None)).
Proof.
  intros H.
  destruct (write_spec (parts ++ [Obj (List.length (heap w))]) (cs ++ [textOnly EOL])
              (extend w [textOnly EOL] [])) as [segments [Hres Hrun]];
    [now apply resolveAll_snoc_new |].
  exists segments. simpl in Hres. rewrite <- !app_assoc in Hres. simpl in Hres.
  split; [exact Hres |].
  unfold writeLine, bind. rewrite newObject_spec, Hrun.
  now rewrite extend_extend, <- app_assoc.
Qed.

Lemma forced_spec (color : Color) (severity : Severity) (parts : list MessagePart)
    (cs : list IColorableSequence) (w : World) :
  resolveAll (heap w) parts = Some cs ->
  exists segments,
    resolveAll (heap w ++ map (forceForeground color) cs) segments
    = Some (map (forceForeground color) cs)
    /\ (segments <- mapM (spreadWithForeground color) parts ;;
        _writeSegmentsToProviders segments severity) w
       = Return tt (extend w (map (forceForeground color) cs)
                      (fanOut (render true (map (forceForeground color) cs))
                              (render false (map (forceForeground color) cs))
                              severity (_providers (this w)) None None)).
Proof.
  intros H. destruct (mapM_spread color _ _ _ H) as [segments [Hrun Hres]].
  exists segments. split; [exact Hres |].
  unfold bind. rewrite Hrun.
  rewrite (writeSegmentsToProviders_spec _ (map (forceForeground color) cs)) by exact Hres.
  now rewrite extend_extend, app_nil_r.
Qed.

Lemma forcedLine_spec (color : Color) (severity : Severity) (parts : list MessagePart)
    (cs : list IColorableSequence) (w : World) :
  resolveAll (heap w) parts = Some cs ->
  exists segments,
    resolveAll (heap w ++ map (forceForeground color) cs ++ [textOnly EOL]) segments
    = Some (map (forceForeground color) cs ++ [textOnly EOL])
    /\ (segments <- mapM (spreadWithForeground color) parts ;;
        eol <- newObject (textOnly EOL) ;;
        _writeSegmentsToProviders (segments ++ [eol]) severity) w
       = Return tt (extend w (map (forceForeground color) cs ++ [textOnly EOL])
                      (fanOut (render true (map (forceForeground color) cs ++ [textOnly EOL]))
                              (render false (map (forceForeground color) cs ++ [textOnly EOL]))
                              severity (_providers (this w)) None None)).
Proof.
  intros H. destruct (mapM_spread color _ _ _ H) as [segments [Hrun Hres]].
  pose proof (resolveAll_snoc_new _ _ _ (textOnly EOL) Hres) as Hsnoc.
  exists (segments ++ [Obj (List.length (heap w ++ map (forceForeground color) cs))]).
  split; [now rewrite app_assoc |].
  unfold bind. rewrite Hrun, newObject_spec.
  rewrite (writeSegmentsToProviders_spec _ (map (forceForeground color) cs ++ [textOnly EOL]))
    by exact Hsnoc.
  now rewrite !extend_extend, app_nil_r.
Qed.

Lemma writeVerbose_enabled (parts : list MessagePart) (cs : list IColorableSequence) (w : World) :
  verboseEnabled (this w) = true ->
  resolveAll (heap w) parts = Some cs ->
  writeVerbose parts w
  = Return tt (extend w []
                 (fanOut (render true cs) (render false cs)
                         log (_providers (this w)) None None)).
Proof.
  intros Hv H. unfold writeVerbose, bind, getVerboseEnabled. rewrite Hv.
  now apply writeSegmentsToProviders_spec.
Qed.

Lemma writeVerbose_disabled (parts : list MessagePart) (w : World) :
  verboseEnabled (this w) = false -> writeVerbose parts w = Return tt w.
Proof. intros Hv. unfold writeVerbose, bind, getVerboseEnabled. now rewrite Hv. Qed.

(** Whatever room the stack has, [writeVerboseLine] uses it up allocating
    line endings and throws, without a call on any provider. *)
Lemma writeVerboseLine_throws (stack : nat) :
  forall parts w,
    writeVerboseLine EOL stack parts w
    = Throw RangeError (extend w (repeat (textOnly EOL) stack) []).
Proof.
  induction stack as [|stack IH]; intros parts w; simpl.
  - unfold throw. now rewrite extend_nil.
  - unfold bind. rewrite newObject_spec, IH, extend_extend. reflexivity.
Qed.

(** A call of [writeVerboseLine] with room for its frame does one thing:
    it allocates a line ending and calls [writeVerboseLine] again with one
    more argument. *)
Lemma writeVerboseLine_calls_itself (stack : nat) (parts : list MessagePart) (w : World) :
  writeVerboseLine EOL (S stack) parts w
  = writeVerboseLine EOL stack (parts ++ [Obj (List.length (heap w))])
      (extend w [textOnly EOL] []).
Proof. simpl. unfold bind. now rewrite newObject_spec. Qed.

(** Every method but [writeVerboseLine], and [writeVerbose] when verbose
    output is on, allocates some objects and runs the fan-out once. *)
Lemma invoke_fanOut (stack : nat) (m : WriteMethod) (parts : list MessagePart)
    (cs : list IColorableSequence) (w : World) :
  resolveAll (heap w) parts = Some cs ->
  reachesFanOut m (this w) = true ->
  exists objs segments sent severity,
    resolveAll (heap w ++ objs) segments = Some sent
    /\ invoke EOL stack m parts w
       = Return tt (extend w objs
                      (fanOut (render true sent) (render false sent) severity
                              (_providers (this w)) None None)).
Proof.
  intros H Hm. destruct m; simpl in Hm; try discriminate; cbn [invoke].
  - destruct (write_spec _ _ _ H) as [segments [Hres Hrun]]. eauto 6.
  - destruct (writeLine_spec _ _ _ H) as [segments [Hres Hrun]]. eauto 6.
  - destruct (forced_spec Yellow warn _ _ _ H) as [segments [Hres Hrun]]. eauto 6.
  - destruct (forcedLine_spec Yellow warn _ _ _ H) as [segments [Hres Hrun]]. eauto 6.
  - destruct (forced_spec Red warn _ _ _ H) as [segments [Hres Hrun]]. eauto 6.
  - destruct (forcedLine_spec Yellow warn _ _ _ H) as [segments [Hres Hrun]]. eauto 6.
  - exists [], parts, cs, log. split.
    + now rewrite app_nil_r.
    + now apply writeVerbose_enabled.
Qed.

End MethodSpecs.

(** ** The serializer: colors *)

(** C6.  A single segment with yellow foreground and blue background is
    rendered with color as the start sequences for 33 then 44, the text, and
    the reset sequences for 49 then 39: foreground before background at the
    start, and the resets in the reverse order of their pushes. *)
Theorem yellow_on_blue_rendering (h : Heap) (r : Ref) (t : string) :
  deref h r = Some {| text := t;
                      foregroundColor := Some Yellow;
                      backgroundColor := Some Blue |} ->
  _serializeFormattableTextSegments h [Obj r] true
  = Some (CSI ++ "33m" ++ CSI ++ "44m" ++ t ++ CSI ++ "49m" ++ CSI ++ "39m")%string.
Proof.
  intros H. unfold _serializeFormattableTextSegments. simpl. rewrite H. reflexivity.
Qed.

Lemma join_texts_noColor (withColor : bool) (cs : list IColorableSequence) :
  forallb noColor cs = true ->
  render withColor cs = String.concat "" (map text cs).
Proof.
  unfold render. induction cs as [|c cs IH]; simpl map; intros H.
  - reflexivity.
  - simpl in H. apply andb_prop in H as [Hc Hcs].
    rewrite !join_cons, (renderSegment_noColor _ _ Hc), (IH Hcs). reflexivity.
Qed.

(** C7.  When no segment has a foreground or a background color (bare
    strings, or objects with both fields absent), the rendering with color
    and the rendering without are the same string: the texts of the
    segments joined in order. *)
Theorem uncolored_renderings_agree (h : Heap) (segments : list MessagePart)
    (cs : list IColorableSequence) :
  resolveAll h segments = Some cs ->
  forallb noColor cs = true ->
  _serializeFormattableTextSegments h segments true = Some (String.concat "" (map text cs))
  /\ _serializeFormattableTextSegments h segments false = Some (String.concat "" (map text cs)).
Proof.
  intros H Hn. rewrite !(serialize_resolved _ _ _ _ H), !(join_texts_noColor _ _ Hn).
  split; reflexivity.
Qed.

(** ** Deliveries *)

Lemma toPlainProviders_deliveries (providers : list ITerminalProvider)
    (colored plain : string) (severity : Severity) :
  toPlainProviders (deliveries providers colored plain severity)
  = map (fun p => (p, plain, severity))
        (filter (fun p => negb (supportsColor p)) providers).
Proof.
  unfold toPlainProviders, deliveries.
  induction providers as [|p rest IH]; simpl.
  - reflexivity.
  - destruct (supportsColor p) eqn:E; simpl; now rewrite IH.
Qed.

Lemma render_plain (cs : list IColorableSequence) :
  render false cs = String.concat "" (map text cs).
Proof.
  reflexivity.
Qed.

Lemma map_text_forced (color : Color) (cs : list IColorableSequence) :
  map text (map (forceForeground color) cs) = map text cs.
Proof. rewrite map_map. apply map_ext. reflexivity. Qed.

Lemma forced_fields (color : Color) (cs : list IColorableSequence) :
  Forall2 (fun o o' => text o' = text o
                       /\ foregroundColor o' = Some color
                       /\ backgroundColor o' = backgroundColor o)
          cs (map (forceForeground color) cs).
Proof. induction cs as [|c cs IH]; simpl; constructor; auto. Qed.

(** Every method but [writeVerboseLine] returns, having changed nothing
    but the end of the heap and the end of the trace. *)
Lemma invoke_returns (EOL : string) (stack : nat) (m : WriteMethod)
    (parts : list MessagePart) (cs : list IColorableSequence) (w : World) :
  resolveAll (heap w) parts = Some cs ->
  isVerboseLine m = false ->
  exists objs evs, invoke EOL stack m parts w = Return tt (extend w objs evs).
Proof.
  intros H Hm. destruct (reachesFanOut m (this w)) eqn:Hr.
  - destruct (invoke_fanOut EOL stack m _ _ _ H Hr) as (objs & segments & sent & severity & _ & Hrun).
    eauto.
  - destruct m; simpl in Hm, Hr; try discriminate.
    exists [], []. cbn [invoke]. rewrite extend_nil. now apply writeVerbose_disabled.
Qed.

(** ** Registration *)

Lemma registerProvider_adds (provider : ITerminalProvider) (w : World) :
  _providers (this (worldOf (registerProvider provider w)))
  = Set_add (_providers (this w)) provider.
Proof. reflexivity. Qed.

Lemma Set_delete_has (s : list ITerminalProvider) (provider : ITerminalProvider) :
  Set_has (Set_delete s provider) provider = false.
Proof.
  unfold Set_has, Set_delete. induction s as [|q s IH]; simpl.
  - reflexivity.
  - destruct (sameProvider provider q) eqn:E; simpl; [| rewrite E]; exact IH.
Qed.

Lemma unregisterProvider_removes (provider : ITerminalProvider) (w : World) :
  Set_has (_providers (this (worldOf (unregisterProvider provider w)))) provider = false.
Proof.
  unfold unregisterProvider, bind, getProviders.
  destruct (Set_has (_providers (this w)) provider) eqn:E; simpl; [| exact E].
  apply Set_delete_has.
Qed.

(** X6.  Registering a provider twice is registering it once: the second
    [registerProvider] changes nothing, neither the providers nor their
    order. *)
Lemma registerProvider_twice (provider : ITerminalProvider) (w : World) :
  worldOf (registerProvider provider (worldOf (registerProvider provider w)))
  = worldOf (registerProvider provider w).
Proof.
  unfold registerProvider, bind, getProviders, setProviders, Set_add. simpl.
  destruct (Set_has (_providers (this w)) provider) eqn:E; simpl.
  - now rewrite E.
  - unfold Set_has in *. rewrite existsb_app. simpl.
    unfold sameProvider at 2. rewrite Nat.eqb_refl, orb_true_r. reflexivity.
Qed.

Lemma setVerboseEnabled_assigns (b : bool) (w : World) :
  verboseEnabled (this (worldOf (setVerboseEnabled b w))) = b.
Proof. reflexivity. Qed.

(** ** The public write methods *)

(** C1.  [writeVerboseLine] does not return: whatever the arguments, the
    providers, the verbose flag and the room on the call stack, the call
    ends in a [RangeError] raised by its chain of calls to itself; the
    terminal is as it was and no provider has been written to. *)
Theorem writeVerboseLine_never_returns (EOL : string) (stack : nat)
    (messageParts : list MessagePart) (w : World) :
  exists w',
    invoke EOL stack WriteVerboseLine messageParts w = Throw RangeError w'
    /\ this w' = this w
    /\ trace w' = trace w.
Proof.
  exists (extend w (repeat (textOnly EOL) stack) []). cbn [invoke].
  rewrite writeVerboseLine_throws. simpl. now rewrite app_nil_r.
Qed.

Lemma truthy_empty (x : option string) : cached "" x -> truthy x = None.
Proof.
  intros H. destruct (truthy x) as [t|] eqn:E; [| reflexivity].
  pose proof (H t E) as ->. destruct x as [[|a s]|]; simpl in E; discriminate.
Qed.

Lemma fanOut_colored_empty (plain : string) (severity : Severity)
    (providers : list ITerminalProvider) :
  forall withColor withoutColor,
    cached "" withColor ->
    serializations true (fanOut "" plain severity providers withColor withoutColor)
    = List.length (providersOf true providers).
Proof.
  unfold providersOf.
  induction providers as [|p rest IH]; intros wc wp Hc; simpl.
  - reflexivity.
  - destruct (supportsColor p) eqn:Ep; simpl.
    + rewrite (truthy_empty _ Hc). simpl. rewrite IH by apply cached_Some. reflexivity.
    + destruct (truthy wp); simpl; now rewrite IH.
Qed.

Lemma fanOut_plain_empty (colored : string) (severity : Severity)
    (providers : list ITerminalProvider) :
  forall withColor withoutColor,
    cached "" withoutColor ->
    serializations false (fanOut colored "" severity providers withColor withoutColor)
    = List.length (providersOf false providers).
Proof.
  unfold providersOf.
  induction providers as [|p rest IH]; intros wc wp Hp; simpl.
  - reflexivity.
  - destruct (supportsColor p) eqn:Ep; simpl.
    + destruct (truthy wc); simpl; now rewrite IH.
    + rewrite (truthy_empty _ Hp). simpl. rewrite IH by apply cached_Some. reflexivity.
Qed.



Lemma write_string (EOL s : string) (w : World) :
  exists objs evs,
    write EOL [Str s] w = Return tt (extend w objs evs)
    /\ providerWrites evs
       = deliveries (_providers (this w)) (s ++ EOL)%string (s ++ EOL)%string log.
Proof.
  destruct (write_spec EOL [Str s] [textOnly s] w eq_refl) as [segments [_ Hrun]].
  eexists _, _. split; [exact Hrun |].
  rewrite fanOut_writes by apply cached_None.
  rewrite !render_app, !render_textOnly. reflexivity.
Qed.

(** C3.  [write] appends a line ending: called with one string [s], it
    hands every provider [s] followed by [EOL], at severity [log], while
    the serialization of the argument alone is [s]. *)
Theorem write_appends_line_ending (EOL s : string) (w : World) :
  exists objs evs,
    write EOL [Str s] w = Return tt (extend w objs evs)
    /\ providerWrites evs
       = deliveries (_providers (this w)) (s ++ EOL)%string (s ++ EOL)%string log
    /\ _serializeFormattableTextSegments (heap w) [Str s] true = Some s
    /\ _serializeFormattableTextSegments (heap w) [Str s] false = Some s.
Proof.
  destruct (write_string EOL s w) as (objs & evs & Hrun & Hw).
  exists objs, evs. repeat split; assumption || reflexivity.
Qed.

(** C4.  [writeLine(x)] hands every registered provider without color
    support, once each, the string [x] followed by two line endings (one
    appended by [writeLine], one by [write]), at severity [log]. *)
Theorem writeLine_two_line_endings (EOL x : string) (w : World) :
  exists objs evs,
    writeLine EOL [Str x] w = Return tt (extend w objs evs)
    /\ toPlainProviders (providerWrites evs)
       = map (fun p => (p, (x ++ EOL ++ EOL)%string, log))
             (filter (fun p => negb (supportsColor p)) (_providers (this w))).
Proof.
  destruct (writeLine_spec EOL [Str x] [textOnly x] w eq_refl) as [segments [_ Hrun]].
  eexists _, _. split; [exact Hrun |].
  rewrite fanOut_writes by apply cached_None.
  rewrite toPlainProviders_deliveries.
  change ([textOnly x] ++ [textOnly EOL; textOnly EOL])
    with ([textOnly x] ++ [textOnly EOL] ++ [textOnly EOL]).
  rewrite !render_app, !render_textOnly. reflexivity.
Qed.

(** C5.  With the verbose flag on, [writeVerbose] and [write] called with
    the same string [s] do not deliver the same text: [writeVerbose] hands
    every provider [s], [write] hands every provider [s] followed by [EOL];
    with the flag off, [writeVerbose] does nothing at all. *)
Theorem writeVerbose_is_not_write (EOL s : string) (providers : list ITerminalProvider) :
  (exists evs evs' objs',
      writeVerbose [Str s] (sampleWorld true providers)
      = Return tt (extend (sampleWorld true providers) [] evs)
      /\ providerWrites evs = deliveries providers s s log
      /\ write EOL [Str s] (sampleWorld true providers)
         = Return tt (extend (sampleWorld true providers) objs' evs')
      /\ providerWrites evs' = deliveries providers (s ++ EOL)%string (s ++ EOL)%string log)
  /\ writeVerbose [Str s] (sampleWorld false providers)
     = Return tt (sampleWorld false providers).
Proof.
  split; [| reflexivity].
  destruct (write_string EOL s (sampleWorld true providers))
    as (objs' & evs' & Hrun & Hw).
  eexists _, evs', objs'. split; [| split; [| split; [exact Hrun | exact Hw]]].
  - now apply (writeVerbose_enabled [Str s] [textOnly s]).
  - rewrite fanOut_writes by apply cached_None. now rewrite !render_textOnly.
Qed.

(** C8.  [writeError] hands the fan-out, at severity [warn], one new
    segment per argument with the text and the background color of the
    argument and the foreground color [Red], whatever foreground the
    argument had, and no segment more (no line ending).  The objects of the
    caller are in the heap as they were. *)
Theorem writeError_forces_red (messageParts : list MessagePart)
    (cs : list IColorableSequence) (w : World) :
  resolveAll (heap w) messageParts = Some cs ->
  exists objs evs segments sent colored plain,
    writeError messageParts w = Return tt (extend w objs evs)
    /\ (forall r o, deref (heap w) r = Some o -> deref (heap w ++ objs) r = Some o)
    /\ resolveAll (heap w ++ objs) messageParts = Some cs
    /\ resolveAll (heap w ++ objs) segments = Some sent
    /\ Forall2 (fun o o' => text o' = text o
                            /\ foregroundColor o' = Some Red
                            /\ backgroundColor o' = backgroundColor o) cs sent
    /\ _serializeFormattableTextSegments (heap w ++ objs) segments true = Some colored
    /\ _serializeFormattableTextSegments (heap w ++ objs) segments false = Some plain
    /\ plain = String.concat "" (map text cs)
    /\ providerWrites evs = deliveries (_providers (this w)) colored plain warn.
Proof.
  intros H. destruct (forced_spec Red warn _ _ _ H) as [segments [Hres Hrun]].
  exists (map (forceForeground Red) cs),
         (fanOut (render true (map (forceForeground Red) cs))
                 (render false (map (forceForeground Red) cs))
                 warn (_providers (this w)) None None),
         segments, (map (forceForeground Red) cs),
         (render true (map (forceForeground Red) cs)),
         (render false (map (forceForeground Red) cs)).
  repeat split.
  - exact Hrun.
  - intros r o. apply deref_extend.
  - now apply resolveAll_extend.
  - exact Hres.
  - apply forced_fields.
  - now apply serialize_resolved.
  - now apply serialize_resolved.
  - now rewrite render_plain, map_text_forced.
  - apply fanOut_writes; apply cached_None.
Qed.

(** C9.  [writeErrorLine] hands the fan-out, at severity [warn], one new
    segment per argument with the text and the background color of the
    argument and the foreground color [Yellow], followed by one segment
    whose text is the line ending of the platform. *)
Theorem writeErrorLine_forces_yellow (EOL : string) (messageParts : list MessagePart)
    (cs : list IColorableSequence) (w : World) :
  resolveAll (heap w) messageParts = Some cs ->
  exists objs evs segments sent colored plain,
    writeErrorLine EOL messageParts w = Return tt (extend w objs evs)
    /\ resolveAll (heap w ++ objs) segments = Some (sent ++ [textOnly EOL])
    /\ Forall2 (fun o o' => text o' = text o
                            /\ foregroundColor o' = Some Yellow
                            /\ backgroundColor o' = backgroundColor o) cs sent
    /\ _serializeFormattableTextSegments (heap w ++ objs) segments true = Some colored
    /\ _serializeFormattableTextSegments (heap w ++ objs) segments false = Some plain
    /\ plain = (String.concat "" (map text cs) ++ EOL)%string
    /\ providerWrites evs = deliveries (_providers (this w)) colored plain warn.
Proof.
  intros H. destruct (forcedLine_spec EOL Yellow warn _ _ _ H) as [segments [Hres Hrun]].
  exists (map (forceForeground Yellow) cs ++ [textOnly EOL]),
         (fanOut (render true (map (forceForeground Yellow) cs ++ [textOnly EOL]))
                 (render false (map (forceForeground Yellow) cs ++ [textOnly EOL]))
                 warn (_providers (this w)) None None),
         segments, (map (forceForeground Yellow) cs),
         (render true (map (forceForeground Yellow) cs ++ [textOnly EOL])),
         (render false (map (forceForeground Yellow) cs ++ [textOnly EOL])).
  repeat split.
  - exact Hrun.
  - exact Hres.
  - apply forced_fields.
  - now apply serialize_resolved.
  - now apply serialize_resolved.
  - now rewrite render_app, render_textOnly, render_plain, map_text_forced.
  - apply fanOut_writes; apply cached_None.
Qed.

(** C10.  A call of [write], [writeLine], [writeWarning], [writeWarningLine],
    [writeError], [writeErrorLine] or [writeVerbose] returns with the
    verbose flag and the registered providers of the terminal as they were
    before the call. *)
Theorem write_methods_keep_state (EOL : string) (stack : nat) (m : WriteMethod)
    (messageParts : list MessagePart) (cs : list IColorableSequence) (w : World) :
  resolveAll (heap w) messageParts = Some cs ->
  isVerboseLine m = false ->
  exists w',
    invoke EOL stack m messageParts w = Return tt w'
    /\ verboseEnabled (this w') = verboseEnabled (this w)
    /\ _providers (this w') = _providers (this w).
Proof.
  intros H Hm. destruct (invoke_returns EOL stack m _ _ _ H Hm) as (objs & evs & Hrun).
  exists (extend w objs evs). repeat split. exact Hrun.
Qed.

(** ** The theorems at sample inputs *)

Example red_foreground_rendering :
  _serializeFormattableTextSegments
    [{| text := "stop"; foregroundColor := Some Red; backgroundColor := None |}] [Obj 0] true
  = Some (CSI ++ "31m" ++ "stop" ++ CSI ++ "39m")%string.
Proof. reflexivity. Qed.

Example gray_on_gray_rendering :
  _serializeFormattableTextSegments
    [{| text := "dim"; foregroundColor := Some Gray; backgroundColor := Some Gray |}]
    [Str "a"; Obj 0] true
  = Some ("a" ++ CSI ++ "90m" ++ CSI ++ "100m" ++ "dim" ++ CSI ++ "49m" ++ CSI ++ "39m")%string.
Proof. reflexivity. Qed.

Example register_twice_unregister_once :
  _providers (this (worldOf (unregisterProvider plainFile
     (worldOf (registerProvider plainFile
        (worldOf (registerProvider plainFile (sampleWorld false [colorConsole]))))))))
  = [colorConsole].
Proof. reflexivity. Qed.

Example writeWarningLine_sample :
  providerWrites (trace (worldOf
    (writeWarningLine LF [Str "w"] (sampleWorld false [colorConsole; plainFile]))))
  = [(colorConsole, (CSI ++ "33m" ++ "w" ++ CSI ++ "39m" ++ LF)%string, warn);
     (plainFile, ("w" ++ LF)%string, warn)].
Proof. reflexivity. Qed.

Example write_sample :
  providerWrites (trace (worldOf (write LF [Str "a"] (sampleWorld true [plainFile]))))
  = [(plainFile, ("a" ++ LF)%string, log)].
Proof. reflexivity. Qed.

Example writeVerbose_sample :
  providerWrites (trace (worldOf (writeVerbose [Str "a"] (sampleWorld true [plainFile]))))
  = [(plainFile, "a", log)].
Proof. reflexivity. Qed.

Example writeVerboseLine_sample :
  writeVerboseLine LF 3 [Str "a"] (sampleWorld true [plainFile])
  = Throw RangeError
      (extend (sampleWorld true [plainFile]) [textOnly LF; textOnly LF; textOnly LF] []).
Proof. reflexivity. Qed.



Lemma yellow_on_blue_rendering_witness :
  deref [yellowOnBlue "hi"] 0
  = Some {| text := "hi"; foregroundColor := Some Yellow; backgroundColor := Some Blue |}
  /\ _serializeFormattableTextSegments [yellowOnBlue "hi"] [Obj 0] true
     = Some (CSI ++ "33m" ++ CSI ++ "44m" ++ "hi" ++ CSI ++ "49m" ++ CSI ++ "39m")%string.
Proof.
  split.
  - reflexivity.
  - apply (yellow_on_blue_rendering [yellowOnBlue "hi"] 0 "hi"). reflexivity.
Defined.

Lemma uncolored_renderings_agree_witness :
  (resolveAll [textOnly "b"] [Str "a"; Obj 0; Str "c"]
   = Some [textOnly "a"; textOnly "b"; textOnly "c"]
   /\ forallb noColor [textOnly "a"; textOnly "b"; textOnly "c"] = true)
  /\ _serializeFormattableTextSegments [textOnly "b"] [Str "a"; Obj 0; Str "c"] true
     = Some "abc"
  /\ _serializeFormattableTextSegments [textOnly "b"] [Str "a"; Obj 0; Str "c"] false
     = Some "abc".
Proof.
  split.
  - split; reflexivity.
  - apply (uncolored_renderings_agree [textOnly "b"] [Str "a"; Obj 0; Str "c"]
             [textOnly "a"; textOnly "b"; textOnly "c"]); reflexivity.
Defined.

Lemma writeError_forces_red_witness :
  resolveAll (heap (sampleWorld false [colorConsole; plainFile])) [Str "e"; Obj 0]
  = Some [textOnly "e"; yellowOnBlue "hi"]
  /\ exists objs evs segments sent colored plain,
       writeError [Str "e"; Obj 0] (sampleWorld false [colorConsole; plainFile])
       = Return tt (extend (sampleWorld false [colorConsole; plainFile]) objs evs)
       /\ (forall r o, deref [yellowOnBlue "hi"] r = Some o ->
                       deref ([yellowOnBlue "hi"] ++ objs) r = Some o)
       /\ resolveAll ([yellowOnBlue "hi"] ++ objs) [Str "e"; Obj 0]
          = Some [textOnly "e"; yellowOnBlue "hi"]
       /\ resolveAll ([yellowOnBlue "hi"] ++ objs) segments = Some sent
       /\ Forall2 (fun o o' => text o' = text o
                               /\ foregroundColor o' = Some Red
                               /\ backgroundColor o' = backgroundColor o)
                  [textOnly "e"; yellowOnBlue "hi"] sent
       /\ _serializeFormattableTextSegments ([yellowOnBlue "hi"] ++ objs) segments true
          = Some colored
       /\ _serializeFormattableTextSegments ([yellowOnBlue "hi"] ++ objs) segments false
          = Some plain
       /\ plain = "ehi"
       /\ providerWrites evs = deliveries [colorConsole; plainFile] colored plain warn.
Proof.
  split.
  - reflexivity.
  - apply (writeError_forces_red [Str "e"; Obj 0] [textOnly "e"; yellowOnBlue "hi"]
             (sampleWorld false [colorConsole; plainFile])). reflexivity.
Defined.

Lemma writeErrorLine_forces_yellow_witness :
  resolveAll (heap (sampleWorld false [colorConsole; plainFile])) [Str "e"; Obj 0]
  = Some [textOnly "e"; yellowOnBlue "hi"]
  /\ exists objs evs segments sent colored plain,
       writeErrorLine LF [Str "e"; Obj 0] (sampleWorld false [colorConsole; plainFile])
       = Return tt (extend (sampleWorld false [colorConsole; plainFile]) objs evs)
       /\ resolveAll ([yellowOnBlue "hi"] ++ objs) segments = Some (sent ++ [textOnly LF])
       /\ Forall2 (fun o o' => text o' = text o
                               /\ foregroundColor o' = Some Yellow
                               /\ backgroundColor o' = backgroundColor o)
                  [textOnly "e"; yellowOnBlue "hi"] sent
       /\ _serializeFormattableTextSegments ([yellowOnBlue "hi"] ++ objs) segments true
          = Some colored
       /\ _serializeFormattableTextSegments ([yellowOnBlue "hi"] ++ objs) segments false
          = Some plain
       /\ plain = ("ehi" ++ LF)%string
       /\ providerWrites evs = deliveries [colorConsole; plainFile] colored plain warn.
Proof.
  split.
  - reflexivity.
  - apply (writeErrorLine_forces_yellow LF [Str "e"; Obj 0]
             [textOnly "e"; yellowOnBlue "hi"]
             (sampleWorld false [colorConsole; plainFile])). reflexivity.
Defined.

Lemma write_methods_keep_state_witness :
  (resolveAll (heap (sampleWorld true [colorConsole; plainFile])) [Str "e"; Obj 0]
   = Some [textOnly "e"; yellowOnBlue "hi"]
   /\ isVerboseLine WriteWarningLine = false)
  /\ exists w',
       invoke LF 0 WriteWarningLine [Str "e"; Obj 0] (sampleWorld true [colorConsole; plainFile])
       = Return tt w'
       /\ verboseEnabled (this w') = true
       /\ _providers (this w') = [colorConsole; plainFile].
Proof.
  split.
  - split; reflexivity.
  - apply (write_methods_keep_state LF 0 WriteWarningLine [Str "e"; Obj 0]
             [textOnly "e"; yellowOnBlue "hi"]
             (sampleWorld true [colorConsole; plainFile])); reflexivity.
Defined.

(** * Further properties *)

(** ** Every outcome extends the world *)

Lemma providerWrites_app (e1 e2 : list Event) :
  providerWrites (e1 ++ e2) = providerWrites e1 ++ providerWrites e2.
Proof.
  induction e1 as [|[c | p t v] e1 IH]; simpl; [reflexivity | exact IH | now rewrite IH].
Qed.

Lemma providerWrites_silent (cs : list bool) : providerWrites (map Serialized cs) = [].
Proof. induction cs as [|c cs IH]; simpl; [reflexivity | exact IH]. Qed.

Lemma extendsAt_silent {A : Type} (c : M A) (w : World) (objs : list IColorableSequence)
    (cs : list bool) :
  worldOf (c w) = extend w objs (map Serialized cs) -> extendsAt c w.
Proof.
  intros H. exists objs, (map Serialized cs). split; [exact H |].
  rewrite providerWrites_silent. constructor.
Qed.

Lemma extendsAt_ret {A : Type} (a : A) (w : World) : extendsAt (ret a) w.
Proof. apply (extendsAt_silent _ _ [] []). simpl. now rewrite extend_nil. Qed.

Lemma extendsAt_bind {A B : Type} (m : M A) (k : A -> M B) (w : World) :
  extendsAt m w ->
  (forall a w', this w' = this w -> extendsAt (k a) w') ->
  extendsAt (bind m k) w.
Proof.
  intros (o1 & e1 & H1 & F1) Hk. unfold extendsAt, bind.
  destruct (m w) as [a w1 | e w1]; simpl in H1; subst w1.
  - destruct (Hk a (extend w o1 e1) eq_refl) as (o2 & e2 & H2 & F2).
    exists (o1 ++ o2), (e1 ++ e2). split.
    + now rewrite H2, extend_extend.
    + rewrite providerWrites_app. apply Forall_app. split; assumption.
  - exists o1, e1. split; [reflexivity | assumption].
Qed.

Lemma extendsAt_newObject (o : IColorableSequence) (w : World) : extendsAt (newObject o) w.
Proof. apply (extendsAt_silent _ _ [o] []). now rewrite newObject_spec. Qed.

Lemma extendsAt_readPart (part : MessagePart) (w : World) : extendsAt (readPart part) w.
Proof.
  apply (extendsAt_silent _ _ [] []). unfold readPart.
  destruct (resolve (heap w) part); simpl; now rewrite extend_nil.
Qed.

Lemma extendsAt_callSerialize (segments : list MessagePart) (withColor : bool) (w : World) :
  extendsAt (callSerialize segments withColor) w.
Proof.
  apply (extendsAt_silent _ _ [] [withColor]). unfold callSerialize, bind.
  rewrite emit_spec.
  destruct (_serializeFormattableTextSegments _ segments withColor); reflexivity.
Qed.

Lemma extendsAt_callProviderWrite (p : ITerminalProvider) (t : string) (v : Severity)
    (w : World) :
  In p (_providers (this w)) -> extendsAt (callProviderWrite p t v) w.
Proof.
  intros Hin. exists [], [ProviderWrite p t v]. split.
  - unfold callProviderWrite. now rewrite emit_spec.
  - simpl. constructor; [exact Hin | constructor].
Qed.

Lemma extendsAt_mapM {A B : Type} (f : A -> M B) (l : list A) :
  (forall a w, extendsAt (f a) w) -> forall w, extendsAt (mapM f l) w.
Proof.
  intros Hf. induction l as [|a l IH]; intros w; simpl.
  - apply extendsAt_ret.
  - apply extendsAt_bind; [apply Hf |]. intros b w1 _.
    apply extendsAt_bind; [apply IH |]. intros bs w2 _. apply extendsAt_ret.
Qed.

Lemma extendsAt_forEachProvider (segments : list MessagePart) (severity : Severity)
    (providers : list ITerminalProvider) :
  forall withColor withoutColor w,
    incl providers (_providers (this w)) ->
    extendsAt (forEachProvider segments severity providers withColor withoutColor) w.
Proof.
  induction providers as [|p rest IH]; intros wc wp w Hincl; simpl.
  - apply extendsAt_ret.
  - assert (Hp : In p (_providers (this w))) by (apply Hincl; now left).
    assert (Hrest : forall w', this w' = this w -> incl rest (_providers (this w'))).
    { intros w' E q Hq. rewrite E. apply Hincl. now right. }
    destruct (supportsColor p); [destruct (truthy wc) | destruct (truthy wp)].
    + apply extendsAt_bind; [now apply extendsAt_callProviderWrite |].
      intros _ w1 E1. apply IH, Hrest, E1.
    + apply extendsAt_bind; [apply extendsAt_callSerialize |]. intros t w1 E1.
      apply extendsAt_bind; [apply extendsAt_callProviderWrite; now rewrite E1 |].
      intros _ w2 E2. apply IH, Hrest. now rewrite E2.
    + apply extendsAt_bind; [now apply extendsAt_callProviderWrite |].
      intros _ w1 E1. apply IH, Hrest, E1.
    + apply extendsAt_bind; [apply extendsAt_callSerialize |]. intros t w1 E1.
      apply extendsAt_bind; [apply extendsAt_callProviderWrite; now rewrite E1 |].
      intros _ w2 E2. apply IH, Hrest. now rewrite E2.
Qed.

Lemma extendsAt_writeSegmentsToProviders (segments : list MessagePart) (severity : Severity)
    (w : World) :
  extendsAt (_writeSegmentsToProviders segments severity) w.
Proof.
  unfold _writeSegmentsToProviders, bind, getProviders.
  apply extendsAt_forEachProvider. apply incl_refl.
Qed.

Lemma extendsAt_spreadWithForeground (color : Color) (part : MessagePart) (w : World) :
  extendsAt (spreadWithForeground color part) w.
Proof.
  apply extendsAt_bind; [apply extendsAt_readPart |].
  intros o w1 _. apply extendsAt_newObject.
Qed.

Lemma extendsAt_writeVerboseLine (EOL : string) (stack : nat) :
  forall parts w, extendsAt (writeVerboseLine EOL stack parts) w.
Proof.
  induction stack as [|stack IH]; intros parts w; simpl.
  - apply (extendsAt_silent _ _ [] []). simpl. now rewrite extend_nil.
  - apply extendsAt_bind; [apply extendsAt_newObject |]. intros eol w1 _. apply IH.
Qed.

Lemma extendsAt_invoke (EOL : string) (stack : nat) (m : WriteMethod)
    (messageParts : list MessagePart) (w : World) :
  extendsAt (invoke EOL stack m messageParts) w.
Proof.
  destruct m; cbn [invoke].
  - apply extendsAt_bind; [apply extendsAt_newObject |]. intros eol w1 _.
    apply extendsAt_writeSegmentsToProviders.
  - apply extendsAt_bind; [apply extendsAt_newObject |]. intros eol w1 _.
    apply extendsAt_bind; [apply extendsAt_newObject |]. intros eol' w2 _.
    apply extendsAt_writeSegmentsToProviders.
  - apply extendsAt_bind; [apply extendsAt_mapM, extendsAt_spreadWithForeground |].
    intros segments w1 _. apply extendsAt_writeSegmentsToProviders.
  - apply extendsAt_bind; [apply extendsAt_mapM, extendsAt_spreadWithForeground |].
    intros segments w1 _.
    apply extendsAt_bind; [apply extendsAt_newObject |]. intros eol w2 _.
    apply extendsAt_writeSegmentsToProviders.
  - apply extendsAt_bind; [apply extendsAt_mapM, extendsAt_spreadWithForeground |].
    intros segments w1 _. apply extendsAt_writeSegmentsToProviders.
  - apply extendsAt_bind; [apply extendsAt_mapM, extendsAt_spreadWithForeground |].
    intros segments w1 _.
    apply extendsAt_bind; [apply extendsAt_newObject |]. intros eol w2 _.
    apply extendsAt_writeSegmentsToProviders.
  - apply extendsAt_bind.
    + apply (extendsAt_silent _ _ [] []). simpl. now rewrite extend_nil.
    + intros [|] w1 _; [apply extendsAt_writeSegmentsToProviders | apply extendsAt_ret].
  - apply extendsAt_writeVerboseLine.
Qed.

(** X1.  Whatever its arguments and whatever its outcome (a return, or an
    exception part of the way), a call of any of the eight write methods
    leaves the fields of the terminal as they were, keeps every object of
    the heap and every earlier event, only adds new objects and new events
    after them, and writes to no provider that is not registered. *)
Theorem write_methods_only_extend (EOL : string) (stack : nat) (m : WriteMethod)
    (messageParts : list MessagePart) (w : World) :
  exists objs evs,
    worldOf (invoke EOL stack m messageParts w) = extend w objs evs
    /\ Forall (fun d => In (fst (fst d)) (_providers (this w))) (providerWrites evs).
Proof. apply extendsAt_invoke. Qed.

(** ** The set of providers *)

Lemma sameProvider_has (s : list ITerminalProvider) (p q : ITerminalProvider) :
  sameProvider q p = true -> Set_has s q = Set_has s p.
Proof.
  unfold sameProvider. intros E. apply Nat.eqb_eq in E.
  unfold Set_has, sameProvider. rewrite E. reflexivity.
Qed.

Lemma Set_add_has (s : list ITerminalProvider) (p q : ITerminalProvider) :
  Set_has (Set_add s p) q = Set_has s q || sameProvider q p.
Proof.
  unfold Set_add. destruct (Set_has s p) eqn:E.
  - destruct (sameProvider q p) eqn:Eq.
    + rewrite (sameProvider_has _ _ _ Eq), E. reflexivity.
    + now rewrite orb_false_r.
  - unfold Set_has. rewrite existsb_app. simpl. now rewrite orb_false_r.
Qed.

Lemma Set_delete_has_other (s : list ITerminalProvider) (p q : ITerminalProvider) :
  Set_has (Set_delete s p) q = Set_has s q && negb (sameProvider q p).
Proof.
  unfold Set_has, Set_delete. induction s as [|x s IH]; simpl.
  - reflexivity.
  - destruct (sameProvider p x) eqn:Epx; simpl; rewrite IH.
    + destruct (sameProvider q x) eqn:Eqx; simpl; [| reflexivity].
      unfold sameProvider in *. apply Nat.eqb_eq in Epx, Eqx.
      rewrite Eqx, <- Epx, Nat.eqb_refl. simpl. now rewrite andb_false_r.
    + destruct (sameProvider q x) eqn:Eqx; simpl; [| reflexivity].
      unfold sameProvider in *. apply Nat.eqb_eq in Eqx. rewrite Eqx.
      rewrite Nat.eqb_sym, Epx. reflexivity.
Qed.

Lemma Set_delete_absent (s : list ITerminalProvider) (p : ITerminalProvider) :
  Set_has s p = false -> Set_delete s p = s.
Proof.
  unfold Set_has, Set_delete. induction s as [|x s IH]; simpl; intros H.
  - reflexivity.
  - apply orb_false_elim in H as [Hx Hs]. rewrite Hx. simpl. now rewrite IH.
Qed.

Lemma unregisterProvider_providers (p : ITerminalProvider) (w : World) :
  _providers (this (worldOf (unregisterProvider p w))) = Set_delete (_providers (this w)) p.
Proof.
  unfold unregisterProvider, bind, getProviders.
  destruct (Set_has (_providers (this w)) p) eqn:E; simpl.
  - reflexivity.
  - now rewrite Set_delete_absent.
Qed.

(** X2.  After [registerProvider(p)] a provider is registered exactly when
    it was registered before or has the identity of [p]. *)
Theorem registerProvider_membership (p q : ITerminalProvider) (w : World) :
  Set_has (_providers (this (worldOf (registerProvider p w)))) q
  = Set_has (_providers (this w)) q || sameProvider q p.
Proof. rewrite registerProvider_adds. apply Set_add_has. Qed.

(** X3.  [unregisterProvider(p)] always returns, and touches nothing but the
    set of providers: afterwards a provider is registered exactly when it
    was registered before and does not have the identity of [p]; when [p]
    was not registered the call changes nothing at all. *)
Theorem unregisterProvider_membership (p q : ITerminalProvider) (w : World) :
  exists w',
    unregisterProvider p w = Return tt w'
    /\ Set_has (_providers (this w')) q
       = Set_has (_providers (this w)) q && negb (sameProvider q p)
    /\ verboseEnabled (this w') = verboseEnabled (this w)
    /\ heap w' = heap w
    /\ trace w' = trace w
    /\ (Set_has (_providers (this w)) p = false -> w' = w).
Proof.
  pose proof (unregisterProvider_providers p w) as Hp.
  unfold unregisterProvider, bind, getProviders, setProviders in *.
  destruct (Set_has (_providers (this w)) p) eqn:E; simpl in Hp.
  - eexists. split; [reflexivity |]. simpl. split; [apply Set_delete_has_other |].
    repeat split. discriminate.
  - exists w. split; [reflexivity |]. split.
    + rewrite <- (Set_delete_absent _ _ E) at 1. apply Set_delete_has_other.
    + repeat split.
Qed.

(** X4.  Registering a provider that was not registered and unregistering it
    again gives back the terminal as it was: same providers in the same
    order, same verbose flag. *)
Theorem register_unregister_round_trip (p : ITerminalProvider) (w : World) :
  Set_has (_providers (this w)) p = false ->
  this (worldOf (unregisterProvider p (worldOf (registerProvider p w)))) = this w.
Proof.
  intros H.
  assert (E : _providers (this (worldOf (unregisterProvider p (worldOf (registerProvider p w)))))
              = _providers (this w)).
  { rewrite unregisterProvider_providers, registerProvider_adds.
    unfold Set_add. rewrite H. unfold Set_delete. rewrite filter_app. simpl.
    unfold sameProvider at 2. rewrite Nat.eqb_refl. simpl. rewrite app_nil_r.
    now apply Set_delete_absent. }
  assert (V : verboseEnabled (this (worldOf (unregisterProvider p (worldOf (registerProvider p w)))))
              = verboseEnabled (this w)).
  { unfold unregisterProvider, registerProvider, bind, getProviders. simpl.
    destruct (Set_has (Set_add (_providers (this w)) p) p); reflexivity. }
  destruct (this (worldOf (unregisterProvider p (worldOf (registerProvider p w)))))
    as [v1 s1], (this w) as [v2 s2]. simpl in *. congruence.
Qed.

Lemma identities_absent (s : list ITerminalProvider) (p : ITerminalProvider) :
  Set_has s p = false -> ~ In (providerId p) (identities s).
Proof.
  unfold Set_has, identities. induction s as [|x s IH]; simpl; intros H.
  - tauto.
  - apply orb_false_elim in H as [Hx Hs]. unfold sameProvider in Hx.
    apply Nat.eqb_neq in Hx. intros [E | Hin]; [congruence | now apply IH].
Qed.

Lemma Set_add_nodup (s : list ITerminalProvider) (p : ITerminalProvider) :
  NoDup (identities s) -> NoDup (identities (Set_add s p)).
Proof.
  intros H. unfold Set_add. destruct (Set_has s p) eqn:E; [exact H |].
  unfold identities. rewrite map_app. simpl.
  apply NoDup_app; [exact H | repeat constructor; auto |].
  intros a Ha [Hb | []]. subst a. now apply (identities_absent _ _ E).
Qed.

Lemma Set_delete_nodup (s : list ITerminalProvider) (p : ITerminalProvider) :
  NoDup (identities s) -> NoDup (identities (Set_delete s p)).
Proof.
  unfold identities, Set_delete. induction s as [|x s IH]; simpl; intros H.
  - constructor.
  - inversion H as [|? ? Hx Hs]; subst.
    destruct (negb (sameProvider p x)); simpl; [| now apply IH].
    constructor; [| now apply IH].
    intros Hin. apply Hx. apply in_map_iff in Hin as (y & Ey & Hy).
    apply filter_In in Hy as [Hy _]. apply in_map_iff. now exists y.
Qed.

Lemma perform_nodup (EOL : string) (op : Operation) (w : World) :
  NoDup (identities (_providers (this w))) ->
  NoDup (identities (_providers (this (perform EOL op w)))).
Proof.
  intros H. destruct op as [p | p | b | o | stack m parts]; cbn [perform].
  - rewrite registerProvider_adds. now apply Set_add_nodup.
  - rewrite unregisterProvider_providers. now apply Set_delete_nodup.
  - exact H.
  - exact H.
  - destruct (extendsAt_invoke EOL stack m parts w) as (objs & evs & E & _).
    rewrite E. exact H.
Qed.

Lemma session_nodup (EOL : string) (ops : list Operation) :
  forall w,
    NoDup (identities (_providers (this w))) ->
    NoDup (identities (_providers (this (session EOL ops w)))).
Proof.
  unfold session. induction ops as [|op ops IH]; simpl; intros w H.
  - exact H.
  - apply IH. now apply perform_nodup.
Qed.

(** X5.  From [new Terminal(provider, verbose)] on, through any sequence of
    registrations, unregistrations, assignments of the verbose flag,
    creations of segments and calls of the write methods, no identity is
    registered twice. *)
Theorem providers_never_duplicated (EOL : string) (provider : ITerminalProvider)
    (verbose : bool) (ops : list Operation) :
  NoDup (identities (_providers (this (session EOL ops (freshWorld provider verbose))))).
Proof.
  apply session_nodup. simpl. repeat constructor. simpl. tauto.
Qed.

(** ** Who is written to *)

Lemma Set_delete_members (s : list ITerminalProvider) (p q : ITerminalProvider) :
  In q (Set_delete s p) -> sameProvider p q = false.
Proof.
  unfold Set_delete. intros H. apply filter_In in H as [_ H].
  now apply negb_true_iff in H.
Qed.

(** X7.  Once [unregisterProvider(p)] has been called, a call of any write
    method, whatever its outcome, makes no call on a provider with the
    identity of [p], however many times [p] had been registered. *)
Theorem unregistered_provider_not_written (EOL : string) (stack : nat) (m : WriteMethod)
    (messageParts : list MessagePart) (p : ITerminalProvider) (w : World) :
  exists objs evs,
    worldOf (invoke EOL stack m messageParts (worldOf (unregisterProvider p w)))
    = extend (worldOf (unregisterProvider p w)) objs evs
    /\ writesTo p (providerWrites evs) = [].
Proof.
  destruct (extendsAt_invoke EOL stack m messageParts (worldOf (unregisterProvider p w)))
    as (objs & evs & E & F).
  exists objs, evs. split; [exact E |].
  rewrite unregisterProvider_providers in F. unfold writesTo.
  induction F as [|d l Hd _ IH]; simpl.
  - reflexivity.
  - now rewrite (Set_delete_members _ _ _ Hd).
Qed.

Lemma same_identity_count (s : list ITerminalProvider) (p : ITerminalProvider) :
  NoDup (identities s) ->
  List.length (filter (sameProvider p) s) = if Set_has s p then 1 else 0.
Proof.
  unfold Set_has, identities. induction s as [|x s IH]; simpl; intros H.
  - reflexivity.
  - inversion H as [|? ? Hx Hs]; subst. specialize (IH Hs).
    destruct (sameProvider p x) eqn:E; simpl.
    + assert (A : existsb (sameProvider p) s = false).
      { destruct (existsb (sameProvider p) s) eqn:Ex; [| reflexivity].
        exfalso. apply Hx. apply existsb_exists in Ex as (y & Hy & Ey).
        unfold sameProvider in E, Ey. apply Nat.eqb_eq in E, Ey.
        apply in_map_iff. exists y. split; [congruence | exact Hy]. }
      rewrite A in IH. now rewrite IH.
    + exact IH.
Qed.

Lemma writesTo_deliveries (providers : list ITerminalProvider) (colored plain : string)
    (severity : Severity) (p : ITerminalProvider) :
  List.length (writesTo p (deliveries providers colored plain severity))
  = List.length (filter (sameProvider p) providers).
Proof.
  unfold writesTo, deliveries. induction providers as [|x s IH]; simpl.
  - reflexivity.
  - destruct (sameProvider p x); simpl; now rewrite IH.
Qed.

(** X8.  On a terminal built by [new Terminal] and any sequence of
    operations, a call that gets to the fan-out writes exactly once to each
    registered provider and not at all to any other. *)
Theorem each_provider_written_once (EOL : string) (provider : ITerminalProvider)
    (verbose : bool) (ops : list Operation) (stack : nat) (m : WriteMethod)
    (messageParts : list MessagePart) (cs : list IColorableSequence) (p : ITerminalProvider) :
  resolveAll (heap (session EOL ops (freshWorld provider verbose))) messageParts = Some cs ->
  reachesFanOut m (this (session EOL ops (freshWorld provider verbose))) = true ->
  exists objs evs,
    invoke EOL stack m messageParts (session EOL ops (freshWorld provider verbose))
    = Return tt (extend (session EOL ops (freshWorld provider verbose)) objs evs)
    /\ List.length (writesTo p (providerWrites evs))
       = if Set_has (_providers (this (session EOL ops (freshWorld provider verbose)))) p
         then 1 else 0.
Proof.
  intros H Hm.
  destruct (invoke_fanOut EOL stack m _ _ _ H Hm)
    as (objs & segments & sent & severity & _ & Hrun).
  eexists _, _. split; [exact Hrun |].
  rewrite fanOut_writes by apply cached_None.
  rewrite writesTo_deliveries. apply same_identity_count.
  apply session_nodup. simpl. repeat constructor. simpl. tauto.
Qed.

(** ** The serializer, in general *)

Lemma serializeLoop_resolves (h : Heap) (withColor : bool) (segments : list MessagePart) :
  forall segmentsToJoin joined,
    serializeLoop h withColor segments segmentsToJoin = Some joined ->
    exists cs, resolveAll h segments = Some cs.
Proof.
  induction segments as [|segment rest IH]; simpl; intros acc joined H.
  - now exists [].
  - rewrite pushedChunks_resolve in H.
    destruct (resolve h segment) as [c|]; simpl in H; [| discriminate].
    destruct (IH _ _ H) as [cs Hcs]. rewrite Hcs. now exists (c :: cs).
Qed.

Lemma serialize_resolves (h : Heap) (segments : list MessagePart) (withColor : bool)
    (s : string) :
  _serializeFormattableTextSegments h segments withColor = Some s ->
  exists cs, resolveAll h segments = Some cs /\ s = render withColor cs.
Proof.
  intros H. unfold _serializeFormattableTextSegments in H.
  destruct (serializeLoop h withColor segments []) as [joined|] eqn:E; [| discriminate].
  destruct (serializeLoop_resolves _ _ _ _ _ E) as [cs Hcs]. exists cs. split; [exact Hcs |].
  pose proof (serialize_resolved _ _ _ withColor Hcs) as R.
  unfold _serializeFormattableTextSegments in R. rewrite E in R. simpl in *. congruence.
Qed.

(** X9.  The rendering of a sequence of segments is the renderings of its
    parts one after the other: segments are rendered one by one, nothing is
    merged or carried over from a segment to the next. *)
Theorem serialize_concatenation (h : Heap) (front back : list MessagePart)
    (withColor : bool) (s t : string) :
  _serializeFormattableTextSegments h front withColor = Some s ->
  _serializeFormattableTextSegments h back withColor = Some t ->
  _serializeFormattableTextSegments h (front ++ back) withColor = Some (s ++ t)%string.
Proof.
  intros Hs Ht.
  destruct (serialize_resolves _ _ _ _ Hs) as (cs & Hcs & ->).
  destruct (serialize_resolves _ _ _ _ Ht) as (ds & Hds & ->).
  rewrite (serialize_resolved _ _ _ _ (resolveAll_app _ _ _ _ _ Hcs Hds)).
  now rewrite render_app.
Qed.

(** X10.  The code table of the two switches: a foreground color pushes one
    start code, in 30..37 or 90, and the reset 39; the background switch
    pushes that code plus 10 and the reset 49; different colors have
    different codes. *)
Theorem color_code_table (c : Color) (startColorCodes endColorCodes : list nat) :
  switchForeground (Some c) (startColorCodes, endColorCodes)
  = (startColorCodes ++ [foregroundCode c], endColorCodes ++ [39])
  /\ switchBackground (Some c) (startColorCodes, endColorCodes)
     = (startColorCodes ++ [foregroundCode c + 10], endColorCodes ++ [49])
  /\ backgroundCode c = foregroundCode c + 10
  /\ (30 <= foregroundCode c <= 37 \/ foregroundCode c = 90)
  /\ (forall c', foregroundCode c' = foregroundCode c -> c' = c).
Proof.
  repeat split; try (destruct c; reflexivity).
  - destruct c; cbv; lia.
  - intros c'. destruct c, c'; cbv; congruence.
Qed.

Lemma renderSegment_nested (o : IColorableSequence) :
  renderSegment true o
  = (openColor foregroundCode (foregroundColor o)
     ++ openColor backgroundCode (backgroundColor o)
     ++ text o
     ++ closeColor 49 (backgroundColor o)
     ++ closeColor 39 (foregroundColor o))%string.
Proof.
  destruct o as [t [f|] [b|]]; try destruct f; try destruct b;
    cbn; rewrite ?append_empty_r; reflexivity.
Qed.

(** X11.  With color, a segment is rendered as: the start sequence of its
    foreground color if it has one, the start sequence of its background
    color if it has one, its text, then the resets in the opposite order,
    49 for the background before 39 for the foreground. *)
Theorem colored_segment_nesting (h : Heap) (segment : MessagePart) (o : IColorableSequence) :
  resolve h segment = Some o ->
  _serializeFormattableTextSegments h [segment] true
  = Some (openColor foregroundCode (foregroundColor o)
          ++ openColor backgroundCode (backgroundColor o)
          ++ text o
          ++ closeColor 49 (backgroundColor o)
          ++ closeColor 39 (foregroundColor o))%string.
Proof.
  intros H. rewrite (serialize_resolved h [segment] [o]) by (simpl; now rewrite H).
  unfold render. simpl. now rewrite renderSegment_nested.
Qed.

(** X12.  Without color the color fields play no part: the rendering is the
    texts of the segments joined in order, whatever colors they carry. *)
Theorem plain_rendering_ignores_colors (h : Heap) (segments : list MessagePart)
    (cs : list IColorableSequence) :
  resolveAll h segments = Some cs ->
  _serializeFormattableTextSegments h segments false = Some (String.concat "" (map text cs)).
Proof.
  intros H. now rewrite (serialize_resolved _ _ _ _ H), render_plain.
Qed.

Lemma append_empty (a b : string) : (a ++ b)%string = "" <-> a = "" /\ b = "".
Proof.
  split.
  - destruct a; simpl; [auto | discriminate].
  - intros [-> ->]. reflexivity.
Qed.

Lemma join_empty {A : Type} (f : A -> string) (isEmpty : A -> bool) (l : list A) :
  (forall a, f a = "" <-> isEmpty a = true) ->
  String.concat "" (map f l) = "" <-> forallb isEmpty l = true.
Proof.
  intros Hf. induction l as [|a l IH]; simpl map; simpl forallb.
  - split; reflexivity.
  - rewrite join_cons, append_empty, andb_true_iff, IH, Hf. reflexivity.
Qed.

Lemma renderSegment_plain_empty (o : IColorableSequence) :
  renderSegment false o = "" <-> emptyText o = true.
Proof.
  unfold renderSegment, emptyText. simpl.
  destruct (text o); split; congruence.
Qed.

Lemma renderSegment_colored_empty (o : IColorableSequence) :
  renderSegment true o = "" <-> emptyText o && noColor o = true.
Proof.
  rewrite renderSegment_nested. unfold emptyText, noColor.
  destruct o as [t [f|] [b|]]; simpl.
  - rewrite andb_false_r. split; discriminate.
  - rewrite andb_false_r. split; discriminate.
  - rewrite andb_false_r. split; discriminate.
  - rewrite append_empty_r, andb_true_r. destruct t; split; congruence.
Qed.

(** X13.  When a rendering is the empty string: the plain rendering, exactly
    when every segment has an empty text; the colored rendering, exactly
    when moreover no segment has a color. *)
Theorem empty_renderings (h : Heap) (segments : list MessagePart)
    (cs : list IColorableSequence) :
  resolveAll h segments = Some cs ->
  (_serializeFormattableTextSegments h segments false = Some ""
   <-> forallb emptyText cs = true)
  /\ (_serializeFormattableTextSegments h segments true = Some ""
      <-> forallb (fun o => emptyText o && noColor o) cs = true).
Proof.
  intros H. rewrite !(serialize_resolved _ _ _ _ H). unfold render. split.
  - rewrite <- (join_empty _ _ cs renderSegment_plain_empty).
    split; [intros E; now injection E | intros ->; reflexivity].
  - rewrite <- (join_empty _ _ cs renderSegment_colored_empty).
    split; [intros E; now injection E | intros ->; reflexivity].
Qed.

(** ** The fan-out, in general *)

(** X14.  What one run of the fan-out does, for any set of providers: one
    call of [write] per provider, in registration order, with the rendering
    of its class and the given severity; a rendering that is not empty is
    computed once if some provider needs it and never otherwise; a
    rendering that is the empty string is computed again for every provider
    of its class. *)
Theorem fanOut_exact (segments : list MessagePart) (cs : list IColorableSequence)
    (severity : Severity) (w : World) :
  resolveAll (heap w) segments = Some cs ->
  exists evs colored plain,
    _serializeFormattableTextSegments (heap w) segments true = Some colored
    /\ _serializeFormattableTextSegments (heap w) segments false = Some plain
    /\ _writeSegmentsToProviders segments severity w = Return tt (extend w [] evs)
    /\ providerWrites evs = deliveries (_providers (this w)) colored plain severity
    /\ serializations true evs
       = match colored with
         | EmptyString => List.length (providersOf true (_providers (this w)))
         | String _ _ => if existsb supportsColor (_providers (this w)) then 1 else 0
         end
    /\ serializations false evs
       = match plain with
         | EmptyString => List.length (providersOf false (_providers (this w)))
         | String _ _ =>
             if existsb (fun p => negb (supportsColor p)) (_providers (this w)) then 1 else 0
         end.
Proof.
  intros H.
  exists (fanOut (render true cs) (render false cs) severity (_providers (this w)) None None),
         (render true cs), (render false cs).
  repeat split.
  - now apply serialize_resolved.
  - now apply serialize_resolved.
  - now apply writeSegmentsToProviders_spec.
  - apply fanOut_writes; apply cached_None.
  - destruct (render true cs) as [|a s] eqn:E.
    + apply fanOut_colored_empty, cached_None.
    + rewrite fanOut_colored_once by discriminate. reflexivity.
  - destruct (render false cs) as [|a s] eqn:E.
    + apply fanOut_plain_empty, cached_None.
    + rewrite fanOut_plain_once by discriminate. reflexivity.
Qed.

Lemma render_line_nonempty (EOL : string) (withColor : bool) (cs : list IColorableSequence) :
  EOL <> "" -> render withColor (cs ++ [textOnly EOL]) <> "".
Proof.
  intros H. rewrite render_app, render_textOnly. now apply append_nonempty_r.
Qed.

Lemma fanOut_line_counts (EOL : string) (cs : list IColorableSequence)
    (severity : Severity) (providers : list ITerminalProvider) :
  EOL <> "" ->
  serializations true
    (fanOut (render true (cs ++ [textOnly EOL])) (render false (cs ++ [textOnly EOL]))
            severity providers None None)
  = (if existsb supportsColor providers then 1 else 0)
  /\ serializations false
       (fanOut (render true (cs ++ [textOnly EOL])) (render false (cs ++ [textOnly EOL]))
               severity providers None None)
     = (if existsb (fun p => negb (supportsColor p)) providers then 1 else 0).
Proof.
  intros H. split.
  - now rewrite fanOut_colored_once by now apply render_line_nonempty.
  - now rewrite fanOut_plain_once by now apply render_line_nonempty.
Qed.

(** X15.  Where the line ending of the platform is not empty, the four
    methods that append it ([write], [writeLine], [writeWarningLine],
    [writeErrorLine]) compute each rendering once if a provider of its class
    is registered and never otherwise, whatever their arguments. *)
Theorem line_methods_render_once (EOL : string) (stack : nat) (m : WriteMethod)
    (messageParts : list MessagePart) (cs : list IColorableSequence) (w : World) :
  0 < String.length EOL ->
  appendsEOL m = true ->
  resolveAll (heap w) messageParts = Some cs ->
  exists objs evs,
    invoke EOL stack m messageParts w = Return tt (extend w objs evs)
    /\ serializations true evs
       = (if existsb supportsColor (_providers (this w)) then 1 else 0)
    /\ serializations false evs
       = (if existsb (fun p => negb (supportsColor p)) (_providers (this w)) then 1 else 0).
Proof.
  intros Hl Hm H.
  assert (He : EOL <> "") by (intros ->; simpl in Hl; lia).
  destruct m; simpl in Hm; try discriminate; cbn [invoke].
  - destruct (write_spec EOL _ _ _ H) as [segments [_ Hrun]].
    eexists _, _. split; [exact Hrun |]. now apply fanOut_line_counts.
  - destruct (writeLine_spec EOL _ _ _ H) as [segments [_ Hrun]].
    eexists _, _. split; [exact Hrun |].
    change (cs ++ [textOnly EOL; textOnly EOL])
      with (cs ++ [textOnly EOL] ++ [textOnly EOL]).
    rewrite app_assoc. now apply fanOut_line_counts.
  - destruct (forcedLine_spec EOL Yellow warn _ _ _ H) as [segments [_ Hrun]].
    eexists _, _. split; [exact Hrun |]. now apply fanOut_line_counts.
  - destruct (forcedLine_spec EOL Yellow warn _ _ _ H) as [segments [_ Hrun]].
    eexists _, _. split; [exact Hrun |]. now apply fanOut_line_counts.
Qed.

(** ** The write methods, in general *)

Lemma deliveries_line (providers : list ITerminalProvider) (colored plain EOL : string)
    (severity : Severity) :
  deliveries providers (colored ++ EOL)%string (plain ++ EOL)%string severity
  = map (fun d => (fst (fst d), (snd (fst d) ++ EOL)%string, snd d))
        (deliveries providers colored plain severity).
Proof.
  unfold deliveries. rewrite map_map. apply map_ext. intros p.
  destruct (supportsColor p); reflexivity.
Qed.

(** X16.  [write] hands every provider, at severity [log], the rendering of
    the arguments for its class followed by the line ending, and allocates
    the one object that holds the line ending. *)
Theorem write_delivers_line (EOL : string) (messageParts : list MessagePart)
    (cs : list IColorableSequence) (w : World) :
  resolveAll (heap w) messageParts = Some cs ->
  exists evs colored plain,
    _serializeFormattableTextSegments (heap w) messageParts true = Some colored
    /\ _serializeFormattableTextSegments (heap w) messageParts false = Some plain
    /\ write EOL messageParts w = Return tt (extend w [textOnly EOL] evs)
    /\ providerWrites evs
       = deliveries (_providers (this w)) (colored ++ EOL)%string (plain ++ EOL)%string log.
Proof.
  intros H. destruct (write_spec EOL _ _ _ H) as [segments [_ Hrun]].
  eexists _, (render true cs), (render false cs).
  split; [now apply serialize_resolved |]. split; [now apply serialize_resolved |].
  split; [exact Hrun |].
  rewrite fanOut_writes by apply cached_None.
  now rewrite !render_app, !render_textOnly.
Qed.

(** X17.  [writeLine] hands every provider what [write] would have handed it
    for the same arguments, followed by one more line ending. *)
Theorem writeLine_is_write_and_line_ending (EOL : string) (messageParts : list MessagePart)
    (cs : list IColorableSequence) (w : World) :
  resolveAll (heap w) messageParts = Some cs ->
  exists objs evs objs' evs',
    write EOL messageParts w = Return tt (extend w objs evs)
    /\ writeLine EOL messageParts w = Return tt (extend w objs' evs')
    /\ providerWrites evs'
       = map (fun d => (fst (fst d), (snd (fst d) ++ EOL)%string, snd d)) (providerWrites evs).
Proof.
  intros H.
  destruct (write_spec EOL _ _ _ H) as [segments [_ Hrun]].
  destruct (writeLine_spec EOL _ _ _ H) as [segments' [_ Hrun']].
  eexists _, _, _, _. split; [exact Hrun |]. split; [exact Hrun' |].
  rewrite !fanOut_writes by apply cached_None.
  change (cs ++ [textOnly EOL; textOnly EOL])
    with (cs ++ [textOnly EOL] ++ [textOnly EOL]).
  rewrite app_assoc, !(render_app _ (cs ++ [textOnly EOL])), !render_textOnly.
  apply deliveries_line.
Qed.

(** X18.  [writeWarning] hands the fan-out, at severity [warn], one new
    segment per argument with the text and the background color of the
    argument and the foreground color [Yellow], and no segment more; the
    objects of the caller are in the heap as they were, and providers
    without color support receive the joined texts. *)
Theorem writeWarning_forces_yellow (messageParts : list MessagePart)
    (cs : list IColorableSequence) (w : World) :
  resolveAll (heap w) messageParts = Some cs ->
  exists objs evs segments sent colored plain,
    writeWarning messageParts w = Return tt (extend w objs evs)
    /\ resolveAll (heap w ++ objs) messageParts = Some cs
    /\ resolveAll (heap w ++ objs) segments = Some sent
    /\ Forall2 (fun o o' => text o' = text o
                            /\ foregroundColor o' = Some Yellow
                            /\ backgroundColor o' = backgroundColor o) cs sent
    /\ _serializeFormattableTextSegments (heap w ++ objs) segments true = Some colored
    /\ _serializeFormattableTextSegments (heap w ++ objs) segments false = Some plain
    /\ plain = String.concat "" (map text cs)
    /\ providerWrites evs = deliveries (_providers (this w)) colored plain warn.
Proof.
  intros H. destruct (forced_spec Yellow warn _ _ _ H) as [segments [Hres Hrun]].
  exists (map (forceForeground Yellow) cs),
         (fanOut (render true (map (forceForeground Yellow) cs))
                 (render false (map (forceForeground Yellow) cs))
                 warn (_providers (this w)) None None),
         segments, (map (forceForeground Yellow) cs),
         (render true (map (forceForeground Yellow) cs)),
         (render false (map (forceForeground Yellow) cs)).
  repeat split.
  - exact Hrun.
  - now apply resolveAll_extend.
  - exact Hres.
  - apply forced_fields.
  - now apply serialize_resolved.
  - now apply serialize_resolved.
  - now rewrite render_plain, map_text_forced.
  - apply fanOut_writes; apply cached_None.
Qed.

(** X19.  [writeWarningLine] hands the fan-out, at severity [warn], one new
    segment per argument with the text and the background color of the
    argument and the foreground color [Yellow], followed by one segment
    whose text is the line ending, which carries no color. *)
Theorem writeWarningLine_forces_yellow (EOL : string) (messageParts : list MessagePart)
    (cs : list IColorableSequence) (w : World) :
  resolveAll (heap w) messageParts = Some cs ->
  exists objs evs segments sent colored plain,
    writeWarningLine EOL messageParts w = Return tt (extend w objs evs)
    /\ resolveAll (heap w ++ objs) segments = Some (sent ++ [textOnly EOL])
    /\ Forall2 (fun o o' => text o' = text o
                            /\ foregroundColor o' = Some Yellow
                            /\ backgroundColor o' = backgroundColor o) cs sent
    /\ _serializeFormattableTextSegments (heap w ++ objs) segments true = Some colored
    /\ _serializeFormattableTextSegments (heap w ++ objs) segments false = Some plain
    /\ plain = (String.concat "" (map text cs) ++ EOL)%string
    /\ providerWrites evs = deliveries (_providers (this w)) colored plain warn.
Proof.
  intros H. destruct (forcedLine_spec EOL Yellow warn _ _ _ H) as [segments [Hres Hrun]].
  exists (map (forceForeground Yellow) cs ++ [textOnly EOL]),
         (fanOut (render true (map (forceForeground Yellow) cs ++ [textOnly EOL]))
                 (render false (map (forceForeground Yellow) cs ++ [textOnly EOL]))
                 warn (_providers (this w)) None None),
         segments, (map (forceForeground Yellow) cs),
         (render true (map (forceForeground Yellow) cs ++ [textOnly EOL])),
         (render false (map (forceForeground Yellow) cs ++ [textOnly EOL])).
  repeat split.
  - exact Hrun.
  - exact Hres.
  - apply forced_fields.
  - now apply serialize_resolved.
  - now apply serialize_resolved.
  - now rewrite render_app, render_textOnly, render_plain, map_text_forced.
  - apply fanOut_writes; apply cached_None.
Qed.

(** X20.  [writeErrorLine] cannot be told from [writeWarningLine]: for all
    arguments and in every world the two calls have the same outcome, the
    same objects allocated, the same renderings computed, the same strings
    written to the same providers. *)
Theorem writeErrorLine_is_writeWarningLine (EOL : string) (messageParts : list MessagePart)
    (w : World) :
  writeErrorLine EOL messageParts w = writeWarningLine EOL messageParts w.
Proof. reflexivity. Qed.

(** X21.  [writeVerbose] allocates nothing; with the verbose flag on it
    hands every provider the rendering of the arguments for its class, as
    they are, at severity [log]; with the flag off it writes to none. *)
Theorem writeVerbose_gate (messageParts : list MessagePart)
    (cs : list IColorableSequence) (w : World) :
  resolveAll (heap w) messageParts = Some cs ->
  exists evs colored plain,
    _serializeFormattableTextSegments (heap w) messageParts true = Some colored
    /\ _serializeFormattableTextSegments (heap w) messageParts false = Some plain
    /\ writeVerbose messageParts w = Return tt (extend w [] evs)
    /\ providerWrites evs
       = (if verboseEnabled (this w)
          then deliveries (_providers (this w)) colored plain log
          else [])
    /\ (verboseEnabled (this w) = false -> evs = []).
Proof.
  intros H. destruct (verboseEnabled (this w)) eqn:Hv.
  - eexists _, (render true cs), (render false cs).
    split; [now apply serialize_resolved |]. split; [now apply serialize_resolved |].
    split; [now apply (writeVerbose_enabled _ cs) |].
    split; [apply fanOut_writes; apply cached_None | discriminate].
  - exists [], (render true cs), (render false cs).
    split; [now apply serialize_resolved |]. split; [now apply serialize_resolved |].
    split; [rewrite extend_nil; now apply writeVerbose_disabled |].
    split; reflexivity.
Qed.

(** X22.  A provider without color support cannot tell [writeError] from
    [writeWarning]: for the same arguments it receives the same text at the
    same severity from both. *)
Theorem plain_providers_error_as_warning (messageParts : list MessagePart)
    (cs : list IColorableSequence) (w : World) :
  resolveAll (heap w) messageParts = Some cs ->
  exists objs evs objs' evs',
    writeError messageParts w = Return tt (extend w objs evs)
    /\ writeWarning messageParts w = Return tt (extend w objs' evs')
    /\ toPlainProviders (providerWrites evs) = toPlainProviders (providerWrites evs').
Proof.
  intros H.
  destruct (forced_spec Red warn _ _ _ H) as [segments [_ Hrun]].
  destruct (forced_spec Yellow warn _ _ _ H) as [segments' [_ Hrun']].
  eexists _, _, _, _. split; [exact Hrun |]. split; [exact Hrun' |].
  rewrite !fanOut_writes by apply cached_None.
  rewrite !toPlainProviders_deliveries, !render_plain, !map_text_forced. reflexivity.
Qed.

(** ** The further theorems at sample inputs *)

Example sampleSession_providers :
  _providers (this sampleSession) = [colorConsole; plainLog]
  /\ verboseEnabled (this sampleSession) = true
  /\ List.length (heap sampleSession) = 3.
Proof. repeat split. Qed.

Lemma register_unregister_round_trip_witness :
  Set_has (_providers (this (sampleWorld true [colorConsole; plainFile]))) plainLog = false
  /\ this (worldOf (unregisterProvider plainLog
             (worldOf (registerProvider plainLog (sampleWorld true [colorConsole; plainFile])))))
     = this (sampleWorld true [colorConsole; plainFile]).
Proof.
  split.
  - reflexivity.
  - apply (register_unregister_round_trip plainLog (sampleWorld true [colorConsole; plainFile])).
    reflexivity.
Defined.

Lemma each_provider_written_once_witness :
  (resolveAll
     (heap (session LF [Register plainFile; NewSegment (yellowOnBlue "hi");
                        Register plainFile; AssignVerbose true]
                    (freshWorld colorConsole false)))
     [Str "v"; Obj 0]
   = Some [textOnly "v"; yellowOnBlue "hi"]
   /\ reachesFanOut WriteVerbose
        (this (session LF [Register plainFile; NewSegment (yellowOnBlue "hi");
                           Register plainFile; AssignVerbose true]
                       (freshWorld colorConsole false)))
      = true)
  /\ exists objs evs,
       invoke LF 0 WriteVerbose [Str "v"; Obj 0]
         (session LF [Register plainFile; NewSegment (yellowOnBlue "hi");
                      Register plainFile; AssignVerbose true]
                  (freshWorld colorConsole false))
       = Return tt
           (extend (session LF [Register plainFile; NewSegment (yellowOnBlue "hi");
                                Register plainFile; AssignVerbose true]
                            (freshWorld colorConsole false)) objs evs)
       /\ List.length (writesTo plainFile (providerWrites evs))
          = if Set_has
                 (_providers
                    (this (session LF [Register plainFile; NewSegment (yellowOnBlue "hi");
                                       Register plainFile; AssignVerbose true]
                                   (freshWorld colorConsole false))))
                 plainFile
            then 1 else 0.
Proof.
  split.
  - split; reflexivity.
  - apply (each_provider_written_once LF colorConsole false
             [Register plainFile; NewSegment (yellowOnBlue "hi");
              Register plainFile; AssignVerbose true]
             0 WriteVerbose [Str "v"; Obj 0] [textOnly "v"; yellowOnBlue "hi"] plainFile);
      reflexivity.
Defined.

Lemma serialize_concatenation_witness :
  (_serializeFormattableTextSegments [yellowOnBlue "hi"] [Str "a"] true = Some "a"
   /\ _serializeFormattableTextSegments [yellowOnBlue "hi"] [Obj 0; Str "b"] true
      = Some (CSI ++ "33m" ++ CSI ++ "44m" ++ "hi" ++ CSI ++ "49m" ++ CSI ++ "39m" ++ "b")%string)
  /\ _serializeFormattableTextSegments [yellowOnBlue "hi"] ([Str "a"] ++ [Obj 0; Str "b"]) true
     = Some ("a" ++ (CSI ++ "33m" ++ CSI ++ "44m" ++ "hi" ++ CSI ++ "49m" ++ CSI ++ "39m" ++ "b"))%string.
Proof.
  split.
  - split; reflexivity.
  - apply (serialize_concatenation [yellowOnBlue "hi"] [Str "a"] [Obj 0; Str "b"] true);
      reflexivity.
Defined.

Lemma colored_segment_nesting_witness :
  resolve [{| text := "x"; foregroundColor := None; backgroundColor := Some Gray |}] (Obj 0)
  = Some {| text := "x"; foregroundColor := None; backgroundColor := Some Gray |}
  /\ _serializeFormattableTextSegments
       [{| text := "x"; foregroundColor := None; backgroundColor := Some Gray |}] [Obj 0] true
     = Some (CSI ++ "100m" ++ "x" ++ CSI ++ "49m")%string.
Proof.
  split.
  - reflexivity.
  - apply (colored_segment_nesting
             [{| text := "x"; foregroundColor := None; backgroundColor := Some Gray |}]
             (Obj 0)
             {| text := "x"; foregroundColor := None; backgroundColor := Some Gray |}).
    reflexivity.
Defined.

Lemma plain_rendering_ignores_colors_witness :
  resolveAll [yellowOnBlue "hi"] [Str "a"; Obj 0] = Some [textOnly "a"; yellowOnBlue "hi"]
  /\ _serializeFormattableTextSegments [yellowOnBlue "hi"] [Str "a"; Obj 0] false = Some "ahi".
Proof.
  split.
  - reflexivity.
  - apply (plain_rendering_ignores_colors [yellowOnBlue "hi"] [Str "a"; Obj 0]
             [textOnly "a"; yellowOnBlue "hi"]). reflexivity.
Defined.

Lemma empty_renderings_witness :
  resolveAll [yellowOnBlue ""] [Str ""; Obj 0] = Some [textOnly ""; yellowOnBlue ""]
  /\ (_serializeFormattableTextSegments [yellowOnBlue ""] [Str ""; Obj 0] false = Some ""
      <-> forallb emptyText [textOnly ""; yellowOnBlue ""] = true)
  /\ (_serializeFormattableTextSegments [yellowOnBlue ""] [Str ""; Obj 0] true = Some ""
      <-> forallb (fun o => emptyText o && noColor o) [textOnly ""; yellowOnBlue ""] = true).
Proof.
  split.
  - reflexivity.
  - apply (empty_renderings [yellowOnBlue ""] [Str ""; Obj 0] [textOnly ""; yellowOnBlue ""]).
    reflexivity.
Defined.

Lemma fanOut_exact_witness :
  resolveAll (heap (sampleWorld false [colorConsole; plainFile; plainLog])) [Str ""]
  = Some [textOnly ""]
  /\ exists evs colored plain,
       _serializeFormattableTextSegments
         (heap (sampleWorld false [colorConsole; plainFile; plainLog])) [Str ""] true
       = Some colored
       /\ _serializeFormattableTextSegments
            (heap (sampleWorld false [colorConsole; plainFile; plainLog])) [Str ""] false
          = Some plain
       /\ _writeSegmentsToProviders [Str ""] warn
            (sampleWorld false [colorConsole; plainFile; plainLog])
          = Return tt (extend (sampleWorld false [colorConsole; plainFile; plainLog]) [] evs)
       /\ providerWrites evs
          = deliveries [colorConsole; plainFile; plainLog] colored plain warn
       /\ serializations true evs
          = match colored with
            | EmptyString => List.length (providersOf true [colorConsole; plainFile; plainLog])
            | String _ _ =>
                if existsb supportsColor [colorConsole; plainFile; plainLog] then 1 else 0
            end
       /\ serializations false evs
          = match plain with
            | EmptyString => List.length (providersOf false [colorConsole; plainFile; plainLog])
            | String _ _ =>
                if existsb (fun p => negb (supportsColor p)) [colorConsole; plainFile; plainLog]
                then 1 else 0
            end.
Proof.
  split.
  - reflexivity.
  - apply (fanOut_exact [Str ""] [textOnly ""] warn
             (sampleWorld false [colorConsole; plainFile; plainLog])). reflexivity.
Defined.

Lemma line_methods_render_once_witness :
  (0 < String.length LF /\ appendsEOL WriteLine = true
   /\ resolveAll (heap (sampleWorld false [plainFile; plainLog])) [Str ""] = Some [textOnly ""])
  /\ exists objs evs,
       invoke LF 0 WriteLine [Str ""] (sampleWorld false [plainFile; plainLog])
       = Return tt (extend (sampleWorld false [plainFile; plainLog]) objs evs)
       /\ serializations true evs
          = (if existsb supportsColor [plainFile; plainLog] then 1 else 0)
       /\ serializations false evs
          = (if existsb (fun p => negb (supportsColor p)) [plainFile; plainLog] then 1 else 0).
Proof.
  split.
  - repeat split. simpl. lia.
  - apply (line_methods_render_once LF 0 WriteLine [Str ""] [textOnly ""]
             (sampleWorld false [plainFile; plainLog]));
      [simpl; lia | reflexivity | reflexivity].
Defined.

Lemma write_delivers_line_witness :
  resolveAll (heap (sampleWorld false [colorConsole; plainFile])) [Str "a"; Obj 0]
  = Some [textOnly "a"; yellowOnBlue "hi"]
  /\ exists evs colored plain,
       _serializeFormattableTextSegments (heap (sampleWorld false [colorConsole; plainFile]))
         [Str "a"; Obj 0] true = Some colored
       /\ _serializeFormattableTextSegments (heap (sampleWorld false [colorConsole; plainFile]))
            [Str "a"; Obj 0] false = Some plain
       /\ write LF [Str "a"; Obj 0] (sampleWorld false [colorConsole; plainFile])
          = Return tt (extend (sampleWorld false [colorConsole; plainFile]) [textOnly LF] evs)
       /\ providerWrites evs
          = deliveries [colorConsole; plainFile] (colored ++ LF)%string (plain ++ LF)%string log.
Proof.
  split.
  - reflexivity.
  - apply (write_delivers_line LF [Str "a"; Obj 0] [textOnly "a"; yellowOnBlue "hi"]
             (sampleWorld false [colorConsole; plainFile])). reflexivity.
Defined.

Lemma writeLine_is_write_and_line_ending_witness :
  resolveAll (heap (sampleWorld false [colorConsole; plainFile])) [Str "a"; Obj 0]
  = Some [textOnly "a"; yellowOnBlue "hi"]
  /\ exists objs evs objs' evs',
       write LF [Str "a"; Obj 0] (sampleWorld false [colorConsole; plainFile])
       = Return tt (extend (sampleWorld false [colorConsole; plainFile]) objs evs)
       /\ writeLine LF [Str "a"; Obj 0] (sampleWorld false [colorConsole; plainFile])
          = Return tt (extend (sampleWorld false [colorConsole; plainFile]) objs' evs')
       /\ providerWrites evs'
          = map (fun d => (fst (fst d), (snd (fst d) ++ LF)%string, snd d)) (providerWrites evs).
Proof.
  split.
  - reflexivity.
  - apply (writeLine_is_write_and_line_ending LF [Str "a"; Obj 0]
             [textOnly "a"; yellowOnBlue "hi"]
             (sampleWorld false [colorConsole; plainFile])). reflexivity.
Defined.

Lemma writeWarning_forces_yellow_witness :
  resolveAll (heap (sampleWorld false [colorConsole; plainFile])) [Str "e"; Obj 0]
  = Some [textOnly "e"; yellowOnBlue "hi"]
  /\ exists objs evs segments sent colored plain,
       writeWarning [Str "e"; Obj 0] (sampleWorld false [colorConsole; plainFile])
       = Return tt (extend (sampleWorld false [colorConsole; plainFile]) objs evs)
       /\ resolveAll ([yellowOnBlue "hi"] ++ objs) [Str "e"; Obj 0]
          = Some [textOnly "e"; yellowOnBlue "hi"]
       /\ resolveAll ([yellowOnBlue "hi"] ++ objs) segments = Some sent
       /\ Forall2 (fun o o' => text o' = text o
                               /\ foregroundColor o' = Some Yellow
                               /\ backgroundColor o' = backgroundColor o)
                  [textOnly "e"; yellowOnBlue "hi"] sent
       /\ _serializeFormattableTextSegments ([yellowOnBlue "hi"] ++ objs) segments true
          = Some colored
       /\ _serializeFormattableTextSegments ([yellowOnBlue "hi"] ++ objs) segments false
          = Some plain
       /\ plain = "ehi"
       /\ providerWrites evs = deliveries [colorConsole; plainFile] colored plain warn.
Proof.
  split.
  - reflexivity.
  - apply (writeWarning_forces_yellow [Str "e"; Obj 0] [textOnly "e"; yellowOnBlue "hi"]
             (sampleWorld false [colorConsole; plainFile])). reflexivity.
Defined.

Lemma writeWarningLine_forces_yellow_witness :
  resolveAll (heap (sampleWorld false [colorConsole; plainFile])) [Str "e"; Obj 0]
  = Some [textOnly "e"; yellowOnBlue "hi"]
  /\ exists objs evs segments sent colored plain,
       writeWarningLine LF [Str "e"; Obj 0] (sampleWorld false [colorConsole; plainFile])
       = Return tt (extend (sampleWorld false [colorConsole; plainFile]) objs evs)
       /\ resolveAll ([yellowOnBlue "hi"] ++ objs) segments = Some (sent ++ [textOnly LF])
       /\ Forall2 (fun o o' => text o' = text o
                               /\ foregroundColor o' = Some Yellow
                               /\ backgroundColor o' = backgroundColor o)
                  [textOnly "e"; yellowOnBlue "hi"] sent
       /\ _serializeFormattableTextSegments ([yellowOnBlue "hi"] ++ objs) segments true
          = Some colored
       /\ _serializeFormattableTextSegments ([yellowOnBlue "hi"] ++ objs) segments false
          = Some plain
       /\ plain = ("ehi" ++ LF)%string
       /\ providerWrites evs = deliveries [colorConsole; plainFile] colored plain warn.
Proof.
  split.
  - reflexivity.
  - apply (writeWarningLine_forces_yellow LF [Str "e"; Obj 0]
             [textOnly "e"; yellowOnBlue "hi"]
             (sampleWorld false [colorConsole; plainFile])). reflexivity.
Defined.

Lemma writeVerbose_gate_witness :
  resolveAll (heap (sampleWorld true [colorConsole; plainFile])) [Str "v"; Obj 0]
  = Some [textOnly "v"; yellowOnBlue "hi"]
  /\ exists evs colored plain,
       _serializeFormattableTextSegments (heap (sampleWorld true [colorConsole; plainFile]))
         [Str "v"; Obj 0] true = Some colored
       /\ _serializeFormattableTextSegments (heap (sampleWorld true [colorConsole; plainFile]))
            [Str "v"; Obj 0] false = Some plain
       /\ writeVerbose [Str "v"; Obj 0] (sampleWorld true [colorConsole; plainFile])
          = Return tt (extend (sampleWorld true [colorConsole; plainFile]) [] evs)
       /\ providerWrites evs
          = (if verboseEnabled (this (sampleWorld true [colorConsole; plainFile]))
             then deliveries [colorConsole; plainFile] colored plain log
             else [])
       /\ (verboseEnabled (this (sampleWorld true [colorConsole; plainFile])) = false
           -> evs = []).
Proof.
  split.
  - reflexivity.
  - apply (writeVerbose_gate [Str "v"; Obj 0] [textOnly "v"; yellowOnBlue "hi"]
             (sampleWorld true [colorConsole; plainFile])). reflexivity.
Defined.

Lemma plain_providers_error_as_warning_witness :
  resolveAll (heap (sampleWorld false [colorConsole; plainFile])) [Str "e"; Obj 0]
  = Some [textOnly "e"; yellowOnBlue "hi"]
  /\ exists objs evs objs' evs',
       writeError [Str "e"; Obj 0] (sampleWorld false [colorConsole; plainFile])
       = Return tt (extend (sampleWorld false [colorConsole; plainFile]) objs evs)
       /\ writeWarning [Str "e"; Obj 0] (sampleWorld false [colorConsole; plainFile])
          = Return tt (extend (sampleWorld false [colorConsole; plainFile]) objs' evs')
       /\ toPlainProviders (providerWrites evs) = toPlainProviders (providerWrites evs').
Proof.
  split.
  - reflexivity.
  - apply (plain_providers_error_as_warning [Str "e"; Obj 0]
             [textOnly "e"; yellowOnBlue "hi"]
             (sampleWorld false [colorConsole; plainFile])). reflexivity.
Defined.
